(** * connery-io/mysql: the SQL guardrail and the request pipeline

    A shallow embedding of [src/actions/chatWithYourMysqlDb.ts].

    - JavaScript strings are sequences of UTF-16 code units: [jsstring] is
      [list N].
    - [sanitizeSqlQuery] is a chain of [String.prototype.replace] calls on
      regular-expression literals.  The literals are kept as syntax trees
      ([regex]) and run by a backtracking matcher ([rmatch]) that follows the
      ECMAScript matching rules for the constructs the file uses, so that the
      embedding of the function reads line by line like the source.
    - [handler] and [generateSqlQuery] talk to OpenAI and MySQL; both are
      modelled as oracles of an environment, and the calls are recorded in a
      trace. *)

From Stdlib Require Import String Ascii.
From Stdlib Require Import List NArith ZArith Bool Arith Lia.
Import ListNotations.

(* ------------------------------------------------------------------ *)
(** ** Strings *)

Module JS.

(** A UTF-16 code unit. *)
Abbreviation char := N (only parsing).
Definition jsstring := list char.

(** A string literal of the source, as code units (ASCII only). *)
Fixpoint js (s : string) : jsstring :=
  match s with
  | EmptyString => []
  | String a r => N_of_ascii a :: js r
  end.

Definition char_eqb (a b : char) : bool := N.eqb a b.

Fixpoint str_eqb (a b : jsstring) : bool :=
  match a, b with
  | [], [] => true
  | x :: a', y :: b' => char_eqb x y && str_eqb a' b'
  | _, _ => false
  end.

(** LineTerminator: LF, CR, LS (U+2028), PS (U+2029). *)
Definition is_line_terminator (c : char) : bool :=
  (c =? 10)%N || (c =? 13)%N || (c =? 8232)%N || (c =? 8233)%N.

(** The class [\s], which is also what [String.prototype.trim] removes:
    WhiteSpace (TAB, VT, FF, SP, NBSP, ZWNBSP and category Zs) and
    LineTerminator. *)
Definition is_space (c : char) : bool :=
  (c =? 9)%N || (c =? 10)%N || (c =? 11)%N || (c =? 12)%N || (c =? 13)%N
  || (c =? 32)%N || (c =? 160)%N || (c =? 5760)%N
  || ((8192 <=? c)%N && (c <=? 8202)%N)
  || (c =? 8232)%N || (c =? 8233)%N || (c =? 8239)%N || (c =? 8287)%N
  || (c =? 12288)%N || (c =? 65279)%N.

(** Canonicalize of a pattern character under the [i] flag.  Without the [u]
    flag a code unit of 128 or more is never mapped to one below 128, and
    every pattern character of this file is ASCII, so the comparison only has
    to fold the ASCII letters. *)
Definition canonicalize (c : char) : char :=
  if ((97 <=? c)%N && (c <=? 122)%N)%bool then (c - 32)%N else c.

Fixpoint drop_while (p : char -> bool) (s : jsstring) : jsstring :=
  match s with
  | [] => []
  | c :: t => if p c then drop_while p t else s
  end.

(** [String.prototype.trim]. *)
Definition trim (s : jsstring) : jsstring :=
  rev (drop_while is_space (rev (drop_while is_space s))).

End JS.
Import JS.

(* ------------------------------------------------------------------ *)
(** ** Regular expressions *)

Module Regex.

Record flags := { ignoreCase : bool; multiline : bool }.

Inductive regex : Type :=
| Empty
| Lit (c : char)                 (* a pattern character *)
| Class (p : char -> bool)       (* [.], [\s], [[\r\n]], [[^;]], [[\s\S]] *)
| Bol                            (* [^] *)
| Eol                            (* [$] *)
| Cat (r1 r2 : regex)
| Star (r : regex)               (* greedy [*] *)
| NotAhead (r : regex).          (* [(?! r)] *)

(** A matcher state: the code unit before the cursor, if any, and the text
    from the cursor on. *)
Definition state : Type := option char * jsstring.
Definition cont : Type := option char -> jsstring -> option state.

Definition accept : cont := fun prev s => Some (prev, s).

Definition lit_matches (fl : flags) (c x : char) : bool :=
  if ignoreCase fl then char_eqb (canonicalize c) (canonicalize x)
  else char_eqb c x.

Definition at_bol (fl : flags) (prev : option char) : bool :=
  match prev with
  | None => true
  | Some c => multiline fl && is_line_terminator c
  end.

Definition at_eol (fl : flags) (s : jsstring) : bool :=
  match s with
  | [] => true
  | c :: _ => multiline fl && is_line_terminator c
  end.

(** RepeatMatcher with min 0 and no upper bound: one more iteration first
    (greedy), the continuation when that fails; an iteration that consumes
    nothing is rejected. *)
Fixpoint star_loop (body : cont -> cont) (n : nat) (k : cont)
  (prev : option char) (s : jsstring) : option state :=
  match n with
  | O => k prev s
  | S n' =>
    match body (fun prev' s' =>
                  if (length s' <? length s)%nat
                  then star_loop body n' k prev' s' else None) prev s with
    | Some r => Some r
    | None => k prev s
    end
  end.

Fixpoint rmatch (fl : flags) (r : regex) (k : cont)
  (prev : option char) (s : jsstring) {struct r} : option state :=
  match r with
  | Empty => k prev s
  | Lit c =>
    match s with
    | x :: t => if lit_matches fl c x then k (Some x) t else None
    | [] => None
    end
  | Class p =>
    match s with
    | x :: t => if p x then k (Some x) t else None
    | [] => None
    end
  | Bol => if at_bol fl prev then k prev s else None
  | Eol => if at_eol fl s then k prev s else None
  | Cat r1 r2 => rmatch fl r1 (rmatch fl r2 k) prev s
  | Star r' => star_loop (rmatch fl r') (length s) k prev s
  | NotAhead r' =>
    match rmatch fl r' accept prev s with
    | Some _ => None
    | None => k prev s
    end
  end.

(** One attempt at the cursor. *)
Definition exec (fl : flags) (r : regex) (prev : option char) (s : jsstring)
  : option state := rmatch fl r accept prev s.

(** The text consumed between [s] and its suffix [s']. *)
Definition matched (s s' : jsstring) : jsstring :=
  firstn (length s - length s') s.

(** [str.replace(re, f)] for a regex without the [g] flag: the leftmost match
    is replaced, the rest is copied. *)
Fixpoint replace_from (fl : flags) (r : regex) (f : jsstring -> jsstring)
  (prev : option char) (s : jsstring) : jsstring :=
  match exec fl r prev s with
  | Some (_, s') => f (matched s s') ++ s'
  | None =>
    match s with
    | [] => []
    | c :: t => c :: replace_from fl r f (Some c) t
    end
  end.

Definition replace (fl : flags) (r : regex) (f : jsstring -> jsstring)
  (s : jsstring) : jsstring := replace_from fl r f None s.

(** [str.replace(re, f)] with the [g] flag: matches are taken left to right,
    each search starting where the last match ended, one code unit further
    after an empty match. *)
Fixpoint replace_all_from (fl : flags) (r : regex) (f : jsstring -> jsstring)
  (fuel : nat) (prev : option char) (s : jsstring) : jsstring :=
  match fuel with
  | O => s
  | S fuel' =>
    let copy :=
      match s with
      | [] => []
      | c :: t => c :: replace_all_from fl r f fuel' (Some c) t
      end in
    match exec fl r prev s with
    | Some (prev', s') =>
      if (length s' <? length s)%nat
      then f (matched s s') ++ replace_all_from fl r f fuel' prev' s'
      else f [] ++ copy
    | None => copy
    end
  end.

Definition replace_all (fl : flags) (r : regex) (f : jsstring -> jsstring)
  (s : jsstring) : jsstring := replace_all_from fl r f (S (length s)) None s.

(** Pattern text. *)
Fixpoint lits (s : jsstring) : regex :=
  match s with
  | [] => Empty
  | c :: t => Cat (Lit c) (lits t)
  end.

Definition any_char (_ : char) : bool := true.
Definition dot (c : char) : bool := negb (is_line_terminator c).
Definition cr_or_lf (c : char) : bool := (c =? 13)%N || (c =? 10)%N.
Definition not_semicolon (c : char) : bool := negb (c =? 59)%N.

End Regex.
Import Regex.

(* ------------------------------------------------------------------ *)
(** ** The guardrail: [sanitizeSqlQuery] *)

Module Guardrail.

Definition fl_gi := {| ignoreCase := true;  multiline := false |}.
Definition fl_g  := {| ignoreCase := false; multiline := false |}.
Definition fl_gm := {| ignoreCase := false; multiline := true  |}.
Definition fl_i  := {| ignoreCase := true;  multiline := false |}.
Definition fl_0  := {| ignoreCase := false; multiline := false |}.

(** [/```sql/gi] *)
Definition re_fence_sql : regex := lits (js "```sql").
(** [/```/g] *)
Definition re_fence : regex := lits (js "```").
(** [/--.*$/gm] *)
Definition re_comment : regex := Cat (lits (js "--")) (Cat (Star (Class dot)) Eol).
(** [/^\s*[\r\n]/gm] *)
Definition re_blank : regex := Cat Bol (Cat (Star (Class is_space)) (Class cr_or_lf)).
(** [/^(?!SELECT\s)/i] *)
Definition re_not_select : regex :=
  Cat Bol (NotAhead (Cat (lits (js "SELECT")) (Class is_space))).
(** [/;[\s\S]*$/] *)
Definition re_tail : regex := Cat (Lit 59%N) (Cat (Star (Class any_char)) Eol).
(** [/[^;]$/] *)
Definition re_last : regex := Cat (Class not_semicolon) Eol.

Definition to (s : string) : jsstring -> jsstring := fun _ => js s.

Notation "x |> f" := (f x) (at level 65, left associativity, only parsing).

(** The [replace] calls of the source, in their order. *)
Definition strip_sql_fences (q : jsstring) := replace_all fl_gi re_fence_sql (to "") q.
Definition strip_fences (q : jsstring) := replace_all fl_g re_fence (to "") q.
Definition strip_comments (q : jsstring) := replace_all fl_gm re_comment (to "") q.
Definition strip_blank_lines (q : jsstring) := replace_all fl_gm re_blank (to "") q.
Definition coerce_select (q : jsstring) := replace fl_i re_not_select (to "SELECT ") q.
Definition cut_at_semicolon (q : jsstring) := replace fl_0 re_tail (to ";") q.
Definition terminate (q : jsstring) := replace fl_0 re_last (fun m => m ++ js ";") q.

Definition sanitizeSqlQuery (query : jsstring) : jsstring :=
  query
    |> strip_sql_fences
    |> strip_fences
    |> strip_comments
    |> strip_blank_lines
    |> coerce_select
    |> cut_at_semicolon
    |> terminate
    |> trim.

(** Steps 1 to 4 of [sanitizeSqlQuery]. *)
Definition strip_all (query : jsstring) : jsstring :=
  query
    |> strip_sql_fences
    |> strip_fences
    |> strip_comments
    |> strip_blank_lines.

End Guardrail.
Import Guardrail.

(* ------------------------------------------------------------------ *)
(** ** The request pipeline: [handler], [generateSqlQuery], [formatResponse] *)

Module Pipeline.

Definition nl : jsstring := [10%N].
Definition quote : jsstring := [34%N].
(** The indentation of the template literal's continuation lines. *)
Definition indent : jsstring := js "        ".

(** The action's input; the parameters that are not required may be absent. *)
Record Input := {
  openaiApiKey : jsstring;
  host : jsstring;
  port : option jsstring;
  sslCert : jsstring;
  user : jsstring;
  password : jsstring;
  database : jsstring;
  schema : option jsstring;
  instructions : option jsstring;
  maxRows : option jsstring;
  question : jsstring
}.

Definition set_schema (i : Input) (s : option jsstring) : Input :=
  {| openaiApiKey := openaiApiKey i; host := host i; port := port i;
     sslCert := sslCert i; user := user i; password := password i;
     database := database i; schema := s; instructions := instructions i;
     maxRows := maxRows i; question := question i |}.

Definition set_maxRows (i : Input) (m : option jsstring) : Input :=
  {| openaiApiKey := openaiApiKey i; host := host i; port := port i;
     sslCert := sslCert i; user := user i; password := password i;
     database := database i; schema := schema i; instructions := instructions i;
     maxRows := m; question := question i |}.

(** [a || d] on an optional string: [undefined] and [''] are falsy. *)
Definition or_else (a : option jsstring) (d : jsstring) : jsstring :=
  match a with
  | Some (c :: t) => c :: t
  | _ => d
  end.

Record Message := { role : jsstring; content : jsstring }.

Record ChatRequest := {
  model : jsstring;
  messages : list Message;
  temperature : Z
}.

Record OutputObject := { response : jsstring }.

Definition generation_failure : jsstring :=
  js "Failed to generate SQL query: No response from OpenAI".

Definition query_failure (errorMessage : jsstring) : jsstring :=
  js "Query failed. Please ensure your question uses existing table and column names. If possible, provide the database schema in the 'schema' parameter. Error: "
  ++ errorMessage.

(** The interpolation [${schemaInfo !== '[]' ? `Schema information: ${schemaInfo}` : ''}]. *)
Definition schema_line (schemaInfo : jsstring) : jsstring :=
  if negb (str_eqb schemaInfo (js "[]"))
  then js "Schema information: " ++ schemaInfo
  else js "".

Definition prompt_head : jsstring :=
  js "You are a MySQL expert. Generate secure, read-only SQL queries based on natural language questions."
  ++ nl ++ indent.

Definition prompt_tail : jsstring :=
  nl ++ indent
  ++ nl ++ indent ++ js "Important: "
  ++ nl ++ indent ++ js "- Return ONLY the raw SQL query without any formatting, markdown, or code blocks"
  ++ nl ++ indent ++ js "- NEVER assume column names exist"
  ++ nl ++ indent ++ js "- When no schema is provided or when asked for " ++ quote
     ++ js "all fields" ++ quote ++ js ", use " ++ quote ++ js "SELECT *" ++ quote
  ++ nl ++ indent ++ js "- Do not invent or guess column names based on table names"
  ++ nl ++ indent
  ++ nl ++ indent ++ js "Rules:"
  ++ nl ++ indent ++ js "- Generate only SELECT queries (no INSERT, UPDATE, DELETE, etc.)"
  ++ nl ++ indent ++ js "- For random selection, use " ++ quote ++ js "ORDER BY RAND()" ++ quote
  ++ nl ++ indent ++ js "- Include relevant JOINs only if table relationships are explicitly provided"
  ++ nl ++ indent ++ js "- Add inline comments with -- to explain the query"
  ++ nl ++ indent ++ js "- Limit results using LIMIT clause".

(** The content of the system message. *)
Definition system_instruction (schemaInfo : jsstring) : jsstring :=
  prompt_head ++ schema_line schemaInfo ++ prompt_tail.

(** The call results and effects of a run: the trace of the external calls
    made so far, and what the code has in hand, a thrown error (its message)
    or a value. *)
Section Run.
(** What JavaScript and the two client libraries provide: numbers with
    [parseInt], row sets with [JSON.stringify(rows, null, 2)]. *)
Variables (number rows : Type).
Variable parseInt : jsstring -> number.
Variable stringify : rows -> jsstring.

Record ConnectionOptions := {
  c_host : jsstring;
  c_port : number;
  c_user : jsstring;
  c_password : jsstring;
  c_database : jsstring;
  c_ssl_ca : jsstring;
  c_ssl_rejectUnauthorized : bool
}.

Inductive Event :=
| Connect (options : ConnectionOptions)       (* mysql.createConnection *)
| Complete (apiKey : jsstring) (request : ChatRequest)
                                              (* ai.chat.completions.create *)
| Query (sql : jsstring)                      (* connection.query *)
| End.                                        (* connection.end *)

(** The outside world of one request.  A thrown error is given by its
    message. *)
Record World := {
  (** [Some e]: the connection attempt throws [e]. *)
  createConnection : ConnectionOptions -> option jsstring;
  (** [inl e]: the call throws; [inr c]: [c] is
      [completion.choices[0]?.message?.content], [None] when absent. *)
  createCompletion : jsstring -> ChatRequest -> jsstring + option jsstring;
  (** [inl e]: the query throws, [e] its message; [inr rows] otherwise. *)
  connectionQuery : jsstring -> jsstring + rows;
  (** [Some e]: closing the connection throws [e]. *)
  connectionEnd : option jsstring
}.

Definition M (A : Type) : Type := list Event * (jsstring + A).

Definition ret {A} (a : A) : M A := ([], inr a).
Definition throw {A} (e : jsstring) : M A := ([], inl e).
Definition bind {A B} (m : M A) (f : A -> M B) : M B :=
  match m with
  | (t, inl e) => (t, inl e)
  | (t, inr a) => let (t', r) := f a in (t ++ t', r)
  end.
(** An awaited external call. *)
Definition call {A} (ev : Event) (result : jsstring + A) : M A := ([ev], result).
Definition try_catch {A} (m : M A) (h : jsstring -> M A) : M A :=
  match m with
  | (t, inl e) => let (t', r) := h e in (t ++ t', r)
  | (t, inr a) => (t, inr a)
  end.
Definition try_finally {A} (m : M A) (fin : M unit) : M A :=
  let (t, r) := m in
  match fin with
  | (t', inl e) => (t ++ t', inl e)
  | (t', inr _) => (t ++ t', r)
  end.

Definition thrown (o : option jsstring) : jsstring + unit :=
  match o with Some e => inl e | None => inr tt end.

Notation "x <- m ;; k" := (bind m (fun x => k))
  (at level 61, m at next level, right associativity).

Definition chat_request (schemaInfo question : jsstring) : ChatRequest :=
  {| model := js "gpt-4";
     messages := [ {| role := js "system"; content := system_instruction schemaInfo |};
                   {| role := js "user"; content := question |} ];
     temperature := 0 |}.

(** [!sqlQuery] for [sqlQuery = content?.trim()]. *)
Definition no_usable_text (c : option jsstring) : bool :=
  match option_map trim c with
  | Some (_ :: _) => false
  | _ => true
  end.

Definition generateSqlQuery (w : World)
  (apiKey schemaInfo question : jsstring) (maxRows : number) : M jsstring :=
  let request := chat_request schemaInfo question in
  c <- call (Complete apiKey request) (createCompletion w apiKey request) ;;
  let sqlQuery := option_map trim c in
  match sqlQuery with
  | Some (x :: t) => ret (x :: t)
  | _ => throw generation_failure
  end.

Definition formatResponse (r : rows) (instructions : option jsstring)
  : OutputObject :=
  let response := stringify r in
  match instructions with
  | Some (c :: t) =>
    {| response := js "Instructions for the following content: "
                   ++ (c :: t) ++ nl ++ nl ++ response |}
  | _ => {| response := response |}
  end.

Definition connection_options (input : Input) : ConnectionOptions :=
  {| c_host := host input;
     c_port := parseInt (or_else (port input) (js "3306"));
     c_user := user input;
     c_password := password input;
     c_database := database input;
     c_ssl_ca := sslCert input;
     c_ssl_rejectUnauthorized := false |}.

Definition handler (w : World) (input : Input) : M OutputObject :=
  let options := connection_options input in
  _ <- call (Connect options) (thrown (createConnection w options)) ;;
  let maxRows := parseInt (or_else (maxRows input) (js "100")) in
  try_finally
    (let schemaInfo := or_else (schema input) (js "[]") in
     sqlQuery <- generateSqlQuery w (openaiApiKey input) schemaInfo
                   (question input) maxRows ;;
     let sanitizedQuery := sanitizeSqlQuery sqlQuery in
     try_catch
       (r <- call (Query sanitizedQuery) (connectionQuery w sanitizedQuery) ;;
        ret (formatResponse r (instructions input)))
       (fun errorMessage => throw (query_failure errorMessage)))
    (call End (thrown (connectionEnd w))).

(** The external calls of a run that touch the database. *)
Definition is_database_event (e : Event) : bool :=
  match e with
  | Connect _ | Query _ | End => true
  | Complete _ _ => false
  end.

Definition is_query (e : Event) : bool :=
  match e with
  | Query _ => true
  | _ => false
  end.
End Run.

Arguments createConnection {number rows}.
Arguments createCompletion {number rows}.
Arguments connectionQuery {number rows}.
Arguments connectionEnd {number rows}.
Arguments Connect {number}.
Arguments Complete {number}.
Arguments Query {number}.
Arguments End {number}.
Arguments is_database_event {number}.
Arguments is_query {number}.
Arguments connection_options {number}.
Arguments generateSqlQuery {number rows}.
Arguments handler {number rows}.
Arguments formatResponse {rows}.

End Pipeline.
Import Pipeline.

(* ------------------------------------------------------------------ *)
(** ** A concrete outside world, for running the pipeline on examples *)

Module Demo.

(** [parseInt(s)] with no radix, on integers: [None] is [NaN].  The value is
    the exact integer; JavaScript rounds it to a double, so the two agree
    where the integer is at most 2^53 in magnitude (and [-0] is not told from
    [0]).  It is used on port numbers and row caps only. *)
Definition digit_value (radix : Z) (c : char) : option Z :=
  let v :=
    if ((48 <=? c)%N && (c <=? 57)%N)%bool then Some (c - 48)%N
    else if ((97 <=? c)%N && (c <=? 122)%N)%bool then Some (c - 87)%N
    else if ((65 <=? c)%N && (c <=? 90)%N)%bool then Some (c - 55)%N
    else None in
  match v with
  | Some d => if (Z.of_N d <? radix)%Z then Some (Z.of_N d) else None
  | None => None
  end.

Fixpoint digits (radix : Z) (acc : option Z) (s : jsstring) : option Z :=
  match s with
  | c :: t =>
    match digit_value radix c with
    | Some d =>
      digits radix (Some (match acc with Some a => a * radix + d | None => d end)%Z) t
    | None => acc
    end
  | [] => acc
  end.

Definition parseInt (s : jsstring) : option Z :=
  let s := drop_while is_space s in
  let '(sign, s) :=
    match s with
    | c :: t => if (c =? 45)%N then ((-1)%Z, t)
                else if (c =? 43)%N then (1%Z, t) else (1%Z, s)
    | [] => (1%Z, s)
    end in
  let '(radix, s) :=
    match s with
    | z :: x :: t =>
      if ((z =? 48)%N && ((x =? 120)%N || (x =? 88)%N))%bool
      then (16%Z, t) else (10%Z, s)
    | _ => (10%Z, s)
    end in
  option_map (Z.mul sign) (digits radix None s).

(** Row sets: only the empty one, which [JSON.stringify] prints as [[]]. *)
Definition rows : Type := unit.
Definition stringify (_ : rows) : jsstring := js "[]".

(** A world where the database works and the model has nothing to say. *)
Definition silent_model : World (option Z) rows :=
  {| createConnection := fun _ => None;
     createCompletion := fun _ _ => inr None;
     connectionQuery := fun _ => inr tt;
     connectionEnd := None |}.

Definition request : Input :=
  {| openaiApiKey := js "sk-test";
     host := js "db.example.com";
     port := None;
     sslCert := js "-----BEGIN CERTIFICATE-----";
     user := js "reader";
     password := js "secret";
     database := js "shop";
     schema := None;
     instructions := None;
     maxRows := None;
     question := js "How many users are there?" |}.

Definition run (w : World (option Z) rows) (i : Input) : M (option Z) OutputObject :=
  handler parseInt stringify w i.

(** Candidate texts. *)
Definition fenced_select_1 : jsstring :=
  js "```sql" ++ nl ++ js "SELECT 1" ++ nl ++ js "```".

Definition literal_with_dashes : jsstring :=
  js "SELECT * FROM t WHERE note = 'a--b'" ++ nl ++ js "LIMIT 5;".

Definition is_digit (c : char) : bool := ((48 <=? c)%N && (c <=? 57)%N)%bool.

End Demo.
Import Demo.

(* ------------------------------------------------------------------ *)
(** ** What each pattern matches, written out

    These definitions are not part of the program: they describe, without the
    matcher, where each pattern of the guardrail matches.  The lemmas of
    [Module Matching] prove the matcher agrees with them. *)

Module Shape.

(** [p*] followed by [k]: the longest run first, then shorter ones. *)
Fixpoint star_class (p : char -> bool) (k : cont)
  (prev : option char) (s : jsstring) : option state :=
  match s with
  | c :: t =>
    if p c then
      match star_class p k (Some c) t with
      | Some r => Some r
      | None => k prev s
      end
    else k prev s
  | [] => k prev s
  end.

(** Number of leading code units in class [p]. *)
Fixpoint lead (p : char -> bool) (s : jsstring) : nat :=
  match s with
  | c :: t => if p c then S (lead p t) else O
  | [] => O
  end.

Definition is_tick (c : char) : bool := (c =? 96)%N.
Definition is_dash (c : char) : bool := (c =? 45)%N.
Definition is_semicolon (c : char) : bool := (c =? 59)%N.

(** The text starts with [k] code units of class [p]: three backticks for a
    fence, two dashes for a comment. *)
Definition starts_run (p : char -> bool) (k : nat) (s : jsstring) : bool :=
  (k <=? lead p s)%nat.

(** The rest of the text from the end of the current line. *)
Definition skip_line (s : jsstring) : jsstring := drop_while dot s.

(** The text starts with white space that contains a CR or LF: the state
    after the last such CR or LF. *)
Fixpoint blank_end (s : jsstring) : option state :=
  match s with
  | c :: t =>
    if is_space c then
      match blank_end t with
      | Some r => Some r
      | None => if cr_or_lf c then Some (Some c, t) else None
      end
    else None
  | [] => None
  end.

Definition is_some {A : Type} (o : option A) : bool :=
  match o with Some _ => true | None => false end.

Definition starts_blank (prev : option char) (s : jsstring) : bool :=
  at_bol fl_gm prev && is_some (blank_end s).

(** [P] holds at no cursor of the text. *)
Fixpoint nowhere (P : option char -> jsstring -> bool)
  (prev : option char) (s : jsstring) : bool :=
  negb (P prev s) &&
  match s with
  | [] => true
  | c :: t => nowhere P (Some c) t
  end.

(** No run of [k] code units of class [p] starts anywhere in the text. *)
Fixpoint no_run (p : char -> bool) (k : nat) (s : jsstring) : bool :=
  negb (starts_run p k s) &&
  match s with
  | [] => true
  | _ :: t => no_run p k t
  end.

Definition no_blank (prev : option char) (s : jsstring) : bool :=
  nowhere starts_blank prev s.

(** [x] is the letter whose upper case is [u], in either case. *)
Definition letter (u : N) (x : char) : Prop := x = u \/ x = (u + 32)%N.

(** The text begins with [SELECT] in any letter case. *)
Definition begins_with_select (s : jsstring) : Prop :=
  exists c1 c2 c3 c4 c5 c6 rest,
    s = c1 :: c2 :: c3 :: c4 :: c5 :: c6 :: rest /\
    letter 83 c1 /\ letter 69 c2 /\ letter 76 c3 /\
    letter 69 c4 /\ letter 67 c5 /\ letter 84 c6.

(** The text begins with [SELECT] in any letter case and a white-space code
    unit after it. *)
Definition begins_with_select_space (s : jsstring) : Prop :=
  exists c1 c2 c3 c4 c5 c6 w rest,
    s = c1 :: c2 :: c3 :: c4 :: c5 :: c6 :: w :: rest /\
    letter 83 c1 /\ letter 69 c2 /\ letter 76 c3 /\
    letter 69 c4 /\ letter 67 c5 /\ letter 84 c6 /\ is_space w = true.

Definition select_space (s : jsstring) : bool :=
  match s with
  | c1 :: c2 :: c3 :: c4 :: c5 :: c6 :: w :: _ =>
    lit_matches fl_i 83%N c1 && lit_matches fl_i 69%N c2 && lit_matches fl_i 76%N c3
    && lit_matches fl_i 69%N c4 && lit_matches fl_i 67%N c5 && lit_matches fl_i 84%N c6
    && is_space w
  | _ => false
  end.

(** The text up to its first [;], without it. *)
Fixpoint before_semicolon (s : jsstring) : jsstring :=
  match s with
  | [] => []
  | c :: t => if is_semicolon c then [] else c :: before_semicolon t
  end.

End Shape.
Import Shape.

(* ------------------------------------------------------------------ *)
(** ** Notions for stating what the guardrail and the pipeline guarantee *)

Module Notions.

(** [a] is [b] with some code units deleted. *)
Inductive subseq : jsstring -> jsstring -> Prop :=
| subseq_nil : subseq [] []
| subseq_keep c a b : subseq a b -> subseq (c :: a) (c :: b)
| subseq_drop c a b : subseq a b -> subseq a (c :: b).

(** [x] occurs in [s]. *)
Definition infix (x s : jsstring) : Prop := exists a b, s = a ++ x ++ b.

(** The text [a] ends where a line starts. *)
Definition at_line_start (a : jsstring) : Prop :=
  a = [] \/ exists a' c, a = a' ++ [c] /\ is_line_terminator c = true.

(** Where [/^\s*[\r\n]/m] matches: at some line start of [s] (its start, or
    the place after a LF, CR, U+2028 or U+2029) white space runs up to a CR
    or LF.  An empty line that ends in U+2028 or U+2029 is not one. *)
Definition has_blank_run (s : jsstring) : Prop :=
  exists a w c b,
    s = a ++ w ++ c :: b /\ at_line_start a /\
    forallb is_space w = true /\ cr_or_lf c = true.

(** Every match of the pattern is a non-empty text of code units of class
    [cls]. *)
Definition hits_in (fl : flags) (r : regex) (cls : char -> bool) : Prop :=
  forall prev s p' s',
    exec fl r prev s = Some (p', s') ->
    exists w, s = w ++ s' /\ w <> [] /\ forallb cls w = true.

(** The text of a line ends at the line terminator or at the end. *)
Definition line_end (tail : jsstring) : Prop :=
  tail = [] \/ exists lt rest, tail = lt :: rest /\ is_line_terminator lt = true.

(** A line up to its first [--]. *)
Fixpoint before_dashes (l : jsstring) : jsstring :=
  match l with
  | a :: ((b :: _) as t) =>
    if is_dash a && is_dash b then [] else a :: before_dashes t
  | _ => l
  end.

(** What steps 1 to 5 leave behind: the prefix, no fence, no comment marker,
    no blank line. *)
Definition clean (s : jsstring) : bool :=
  select_space s && no_run is_tick 3 s && no_run is_dash 2 s && no_blank None s.

(** A statement as the database is meant to get it. *)
Definition safe_statement (q : jsstring) : Prop :=
  begins_with_select q /\
  count_occ N.eq_dec q 59%N = 1%nat /\ last q 0%N = 59%N /\
  ~ infix (js "--") q /\ ~ infix (js "```") q.

(** The statements a run sent to the database. *)
Definition queries {number : Type} (t : list (Event number)) : list jsstring :=
  flat_map (fun e => match e with Query q => [q] | _ => [] end) t.

Definition with_optionals (i : Input) (p s ins m : option jsstring) : Input :=
  {| openaiApiKey := openaiApiKey i; host := host i; port := p;
     sslCert := sslCert i; user := user i; password := password i;
     database := database i; schema := s; instructions := ins;
     maxRows := m; question := question i |}.

(** More outside worlds: the model answers with a fenced, commented
    statement; the database accepts it, rejects it, or fails to close. *)
Definition answer : jsstring :=
  js "```sql" ++ nl ++ js "SELECT * FROM users -- all of them" ++ nl
  ++ js "LIMIT 5;" ++ nl ++ js "```".

Definition answering : World (option Z) Demo.rows :=
  {| createConnection := fun _ => None;
     createCompletion := fun _ _ => inr (Some answer);
     connectionQuery := fun _ => inr tt;
     connectionEnd := None |}.

Definition rejecting : World (option Z) Demo.rows :=
  {| createConnection := fun _ => None;
     createCompletion := fun _ _ => inr (Some answer);
     connectionQuery := fun _ => inl (js "Unknown column 'x'");
     connectionEnd := None |}.

(** The model has nothing to say and the connection fails to close. *)
Definition silent_unclosable : World (option Z) Demo.rows :=
  {| createConnection := fun _ => None;
     createCompletion := fun _ _ => inr None;
     connectionQuery := fun _ => inr tt;
     connectionEnd := Some (js "Connection lost") |}.

Definition failing_to_close : World (option Z) Demo.rows :=
  {| createConnection := fun _ => None;
     createCompletion := fun _ _ => inr (Some answer);
     connectionQuery := fun _ => inr tt;
     connectionEnd := Some (js "Connection lost") |}.

End Notions.
Import Notions.

(* ------------------------------------------------------------------ *)
(** ** The matcher on the patterns of the guardrail *)

Module Matching.

#[global] Arguments lit_matches : simpl never.
#[global] Arguments is_space : simpl never.
#[global] Arguments is_line_terminator : simpl never.
#[global] Arguments cr_or_lf : simpl never.
#[global] Arguments dot : simpl never.
#[global] Arguments is_tick : simpl never.
#[global] Arguments is_dash : simpl never.
#[global] Arguments is_semicolon : simpl never.
#[global] Arguments not_semicolon : simpl never.
#[global] Arguments Nat.ltb : simpl never.
#[global] Arguments Nat.leb : simpl never.

Lemma star_loop_class fl p k : forall n prev s,
  (length s <= n)%nat ->
  star_loop (rmatch fl (Class p)) n k prev s = star_class p k prev s.
Proof.
  induction n as [|n IH]; intros prev s Hn.
  - destruct s; [reflexivity | simpl in Hn; lia].
  - destruct s as [|c t]; [reflexivity|].
    simpl. destruct (p c); [|reflexivity].
    replace (length t <? S (length t))%nat with true
      by (symmetry; apply Nat.ltb_lt; lia).
    rewrite IH by (simpl in Hn; lia). reflexivity.
Qed.

Lemma rmatch_star_class fl p k prev s :
  rmatch fl (Star (Class p)) k prev s = star_class p k prev s.
Proof.
  change (rmatch fl (Star (Class p)) k prev s)
    with (star_loop (rmatch fl (Class p)) (length s) k prev s).
  apply star_loop_class. lia.
Qed.

(** *** Code-unit classes *)

Lemma lit_matches_cs fl c x :
  ignoreCase fl = false -> lit_matches fl c x = (x =? c)%N.
Proof. unfold lit_matches, char_eqb. intros ->. apply N.eqb_sym. Qed.

Lemma lit_matches_tick_ci x : lit_matches fl_gi 96%N x = is_tick x.
Proof.
  unfold lit_matches, char_eqb, is_tick, canonicalize; simpl ignoreCase.
  destruct ((97 <=? x)%N && (x <=? 122)%N) eqn:E.
  - apply andb_prop in E as [E1 E2].
    apply N.leb_le in E1. apply N.leb_le in E2.
    transitivity false; [|symmetry]; apply N.eqb_neq; simpl; lia.
  - apply N.eqb_sym.
Qed.

Lemma lit_matches_letter u x :
  (65 <= u <= 90)%N ->
  lit_matches fl_i u x = true <-> letter u x.
Proof.
  intros Hu. unfold lit_matches, char_eqb, letter, canonicalize; simpl ignoreCase.
  replace ((97 <=? u)%N && (u <=? 122)%N) with false
    by (symmetry; apply andb_false_iff; left; apply N.leb_gt; lia).
  rewrite N.eqb_eq.
  destruct ((97 <=? x)%N && (x <=? 122)%N) eqn:E.
  - apply andb_prop in E as [E1 E2].
    apply N.leb_le in E1. apply N.leb_le in E2. lia.
  - apply andb_false_iff in E. rewrite !N.leb_gt in E. lia.
Qed.

Lemma cr_or_lf_space c : cr_or_lf c = true -> is_space c = true.
Proof.
  unfold cr_or_lf. intros H. apply orb_prop in H.
  destruct H as [H|H]; apply N.eqb_eq in H; subst c; reflexivity.
Qed.

Lemma cr_or_lf_line_terminator c : cr_or_lf c = true -> is_line_terminator c = true.
Proof.
  unfold cr_or_lf. intros H. apply orb_prop in H.
  destruct H as [H|H]; apply N.eqb_eq in H; subst c; reflexivity.
Qed.

Lemma line_terminator_space c : is_line_terminator c = true -> is_space c = true.
Proof.
  unfold is_line_terminator. intros H.
  repeat (apply orb_prop in H; destruct H as [H|H]);
    apply N.eqb_eq in H; subst c; reflexivity.
Qed.

Lemma tick_not_line_terminator c : is_tick c = true -> is_line_terminator c = false.
Proof. unfold is_tick. rewrite N.eqb_eq. intros ->. reflexivity. Qed.

Lemma dash_not_line_terminator c : is_dash c = true -> is_line_terminator c = false.
Proof. unfold is_dash. rewrite N.eqb_eq. intros ->. reflexivity. Qed.

Lemma semicolon_not_space c : is_semicolon c = true -> is_space c = false.
Proof. unfold is_semicolon. rewrite N.eqb_eq. intros ->. reflexivity. Qed.

Lemma letter_not_space u x : (65 <= u <= 90)%N -> letter u x -> is_space x = false.
Proof.
  intros Hu Hx. unfold is_space.
  repeat (apply orb_false_intro);
    try (apply N.eqb_neq; destruct Hx; lia).
  apply andb_false_iff. left. apply N.leb_gt. destruct Hx; lia.
Qed.

Lemma letter_not_semicolon u x : (65 <= u <= 90)%N -> letter u x -> is_semicolon x = false.
Proof. intros Hu Hx. apply N.eqb_neq. destruct Hx; lia. Qed.

Lemma lit_matches_tick x : lit_matches fl_g 96%N x = is_tick x.
Proof. apply lit_matches_cs. reflexivity. Qed.

Lemma lit_matches_dash x : lit_matches fl_gm 45%N x = is_dash x.
Proof. apply lit_matches_cs. reflexivity. Qed.

Lemma lit_matches_semicolon x : lit_matches fl_0 59%N x = is_semicolon x.
Proof. apply lit_matches_cs. reflexivity. Qed.

(** *** One attempt of each pattern at a cursor *)

Lemma exec_fence prev s :
  exec fl_g re_fence prev s =
  match s with
  | a :: b :: c :: t =>
    if is_tick a && is_tick b && is_tick c then Some (Some c, t) else None
  | _ => None
  end.
Proof.
  unfold exec, re_fence. simpl.
  destruct s as [|a [|b [|c t]]]; rewrite ?lit_matches_tick;
    repeat match goal with |- context [is_tick ?x] => destruct (is_tick x) end;
    reflexivity.
Qed.

Lemma exec_fence_sql prev s r :
  exec fl_gi re_fence_sql prev s = Some r -> starts_run is_tick 3 s = true.
Proof.
  unfold exec, re_fence_sql, starts_run.
  destruct s as [|a [|b [|c t]]]; simpl; rewrite ?lit_matches_tick_ci;
    repeat match goal with |- context [is_tick ?x] => destruct (is_tick x) end;
    try discriminate; intros _; apply Nat.leb_le; lia.
Qed.

Lemma starts_fence_run s :
  starts_run is_tick 3 s =
  match s with
  | a :: b :: c :: _ => is_tick a && is_tick b && is_tick c
  | _ => false
  end.
Proof.
  unfold starts_run.
  destruct s as [|a [|b [|c t]]]; simpl;
    repeat match goal with |- context [is_tick ?x] => destruct (is_tick x) end;
    reflexivity.
Qed.

Lemma starts_dashes_run s :
  starts_run is_dash 2 s =
  match s with
  | a :: b :: _ => is_dash a && is_dash b
  | _ => false
  end.
Proof.
  unfold starts_run.
  destruct s as [|a [|b t]]; simpl;
    repeat match goal with |- context [is_dash ?x] => destruct (is_dash x) end;
    reflexivity.
Qed.

Lemma star_dot_eol t : forall prev,
  exists p', star_class dot (rmatch fl_gm Eol accept) prev t = Some (p', skip_line t).
Proof.
  unfold skip_line. set (k := rmatch fl_gm Eol accept).
  induction t as [|c t IH]; intros prev; simpl.
  - eexists; reflexivity.
  - destruct (dot c) eqn:E.
    + destruct (IH (Some c)) as [p' ->]. eexists; reflexivity.
    + unfold dot in E. apply negb_false_iff in E.
      subst k. simpl. rewrite E. eexists; reflexivity.
Qed.

Lemma exec_comment prev s :
  match s with
  | a :: b :: t =>
    if is_dash a && is_dash b
    then exists p', exec fl_gm re_comment prev s = Some (p', skip_line t)
    else exec fl_gm re_comment prev s = None
  | _ => exec fl_gm re_comment prev s = None
  end.
Proof.
  unfold exec, re_comment.
  destruct s as [|a [|b t]]; simpl; rewrite ?lit_matches_dash.
  - reflexivity.
  - destruct (is_dash a); reflexivity.
  - destruct (is_dash a), (is_dash b); try reflexivity.
  simpl andb. cbv iota.
  change (star_loop _ _ _ _ _)
    with (rmatch fl_gm (Star (Class dot)) (rmatch fl_gm Eol accept) (Some b) t).
  rewrite rmatch_star_class. apply star_dot_eol.
Qed.

Lemma star_space_crlf s : forall prev,
  star_class is_space (rmatch fl_gm (Class cr_or_lf) accept) prev s = blank_end s.
Proof.
  set (k := rmatch fl_gm (Class cr_or_lf) accept).
  induction s as [|c t IH]; intros prev; simpl; [reflexivity|].
  destruct (is_space c) eqn:E.
  - rewrite IH. destruct (blank_end t); reflexivity.
  - subst k. simpl. destruct (cr_or_lf c) eqn:E'; [|reflexivity].
    apply cr_or_lf_space in E'. congruence.
Qed.

Lemma exec_blank prev s :
  exec fl_gm re_blank prev s = if at_bol fl_gm prev then blank_end s else None.
Proof.
  unfold exec, re_blank.
  change (rmatch fl_gm (Cat Bol ?r) accept prev s)
    with (if at_bol fl_gm prev then rmatch fl_gm r accept prev s else None).
  destruct (at_bol fl_gm prev); [|reflexivity].
  change (rmatch fl_gm (Cat (Star (Class is_space)) (Class cr_or_lf)) accept prev s)
    with (rmatch fl_gm (Star (Class is_space))
            (rmatch fl_gm (Class cr_or_lf) accept) prev s).
  rewrite rmatch_star_class. apply star_space_crlf.
Qed.

Lemma exec_not_select prev s :
  exec fl_i re_not_select prev s =
  match prev with
  | None => if select_space s then None else Some (None, s)
  | Some _ => None
  end.
Proof.
  unfold exec, re_not_select. destruct prev; [reflexivity|].
  simpl. unfold select_space.
  destruct s as [|c1 [|c2 [|c3 [|c4 [|c5 [|c6 [|w t]]]]]]];
    repeat match goal with
           | |- context [lit_matches fl_i ?u ?x] => destruct (lit_matches fl_i u x)
           end;
    try reflexivity.
  simpl. destruct (is_space w); reflexivity.
Qed.

Lemma star_any_eol t : forall prev,
  exists p', star_class any_char (rmatch fl_0 Eol accept) prev t = Some (p', []).
Proof.
  set (k := rmatch fl_0 Eol accept).
  induction t as [|c t IH]; intros prev; simpl.
  - eexists; reflexivity.
  - destruct (IH (Some c)) as [p' ->]. eexists; reflexivity.
Qed.

Lemma exec_tail prev s :
  match s with
  | c :: t =>
    if is_semicolon c
    then exists p', exec fl_0 re_tail prev s = Some (p', [])
    else exec fl_0 re_tail prev s = None
  | [] => exec fl_0 re_tail prev s = None
  end.
Proof.
  unfold exec, re_tail. destruct s as [|c t]; [reflexivity|].
  simpl. rewrite lit_matches_semicolon.
  destruct (is_semicolon c); [|reflexivity].
  change (star_loop _ _ _ _ _)
    with (rmatch fl_0 (Star (Class any_char)) (rmatch fl_0 Eol accept) (Some c) t).
  rewrite rmatch_star_class. apply star_any_eol.
Qed.

Lemma exec_last prev s :
  exec fl_0 re_last prev s =
  match s with
  | [c] => if not_semicolon c then Some (Some c, []) else None
  | _ => None
  end.
Proof.
  unfold exec, re_last. destruct s as [|c [|d t]]; simpl;
    try destruct (not_semicolon c); reflexivity.
Qed.

End Matching.

(* ------------------------------------------------------------------ *)
(** ** The replace operations *)

Module Replace.

Section Global.
Variables (fl : flags) (r : regex) (f : jsstring -> jsstring).

Lemma replace_all_hit n prev s p' s' :
  exec fl r prev s = Some (p', s') ->
  (length s' < length s)%nat ->
  replace_all_from fl r f (S n) prev s =
  f (matched s s') ++ replace_all_from fl r f n p' s'.
Proof.
  intros He Hl. simpl. rewrite He.
  apply Nat.ltb_lt in Hl. rewrite Hl. reflexivity.
Qed.

Lemma replace_all_miss n prev s :
  exec fl r prev s = None ->
  replace_all_from fl r f (S n) prev s =
  match s with
  | [] => []
  | c :: t => c :: replace_all_from fl r f n (Some c) t
  end.
Proof. intros He. simpl. rewrite He. reflexivity. Qed.

(** Fuel: any amount above the length of the text gives the same result,
    so [replace_all] is the result of the loop and not of its bound. *)
Lemma replace_all_from_fuel : forall n m prev s,
  (length s < n)%nat -> (length s < m)%nat ->
  replace_all_from fl r f n prev s = replace_all_from fl r f m prev s.
Proof.
  induction n as [|n IH]; intros m prev s Hn Hm; [lia|].
  destruct m as [|m]; [lia|].
  simpl. destruct (exec fl r prev s) as [[p' s']|].
  - destruct (length s' <? length s)%nat eqn:E.
    + apply Nat.ltb_lt in E. f_equal. apply IH; lia.
    + f_equal. destruct s as [|c t]; [reflexivity|].
      f_equal. apply IH; simpl in *; lia.
  - destruct s as [|c t]; [reflexivity|].
    f_equal. apply IH; simpl in *; lia.
Qed.

(** Where the pattern matches at no cursor, nothing is replaced. *)
Lemma replace_all_nowhere (P : option char -> jsstring -> bool) :
  (forall prev s, P prev s = false -> exec fl r prev s = None) ->
  forall n prev s, nowhere P prev s = true ->
  replace_all_from fl r f n prev s = s.
Proof.
  intros HP. induction n as [|n IH]; intros prev s H; [reflexivity|].
  destruct s as [|c t]; simpl in H; apply andb_prop in H as [H1 H2];
    apply negb_true_iff in H1; rewrite replace_all_miss by (apply HP, H1).
  - reflexivity.
  - f_equal. apply IH, H2.
Qed.

Lemma replace_nowhere (P : option char -> jsstring -> bool) :
  (forall prev s, P prev s = false -> exec fl r prev s = None) ->
  forall prev s, nowhere P prev s = true ->
  replace_from fl r f prev s = s.
Proof.
  intros HP prev s. revert prev.
  induction s as [|c t IH]; intros prev H; simpl in H;
    apply andb_prop in H as [H1 H2]; apply negb_true_iff in H1;
    simpl; rewrite (HP _ _ H1).
  - reflexivity.
  - f_equal. apply IH, H2.
Qed.
End Global.

(** Induction over a global replace that deletes its matches, for a pattern
    that never matches the empty text. *)
Section Deleting.
Variables (fl : flags) (r : regex).
Hypothesis nonempty : forall prev s p' s',
  exec fl r prev s = Some (p', s') -> (length s' < length s)%nat.
Variable Q : option char -> jsstring -> jsstring -> Prop.
Hypothesis Q_end : forall prev, exec fl r prev [] = None -> Q prev [] [].
Hypothesis Q_copy : forall prev c t out,
  exec fl r prev (c :: t) = None -> Q (Some c) t out -> Q prev (c :: t) (c :: out).
Hypothesis Q_hit : forall prev s p' s' out,
  exec fl r prev s = Some (p', s') -> Q p' s' out -> Q prev s out.

Lemma deleting_ind : forall n prev s,
  (length s < n)%nat -> Q prev s (replace_all_from fl r (to "") n prev s).
Proof.
  induction n as [|n IH]; intros prev s Hn; [lia|].
  destruct (exec fl r prev s) as [[p' s']|] eqn:He.
  - pose proof (nonempty _ _ _ _ He) as Hl.
    rewrite (replace_all_hit fl r _ n prev s p' s' He Hl). simpl.
    eapply Q_hit; [exact He|]. apply IH. lia.
  - rewrite (replace_all_miss fl r _ n prev s He).
    destruct s as [|c t].
    + apply Q_end, He.
    + apply Q_copy; [exact He|]. apply IH. simpl in Hn. lia.
Qed.
End Deleting.

End Replace.

(* ------------------------------------------------------------------ *)
(** ** The deleting steps: fences, comments, blank lines *)

Module Steps.
Import Matching Replace.

(** *** Runs *)

Lemma starts_run_true p k s : starts_run p k s = true <-> (k <= lead p s)%nat.
Proof. apply Nat.leb_le. Qed.

Lemma starts_run_false p k s : starts_run p k s = false <-> (lead p s < k)%nat.
Proof. apply Nat.leb_gt. Qed.

Lemma no_run_cons p k c t :
  no_run p k (c :: t) = negb (starts_run p k (c :: t)) && no_run p k t.
Proof. reflexivity. Qed.

Lemma no_run_suffix p k a : forall b,
  no_run p k (a ++ b) = true -> no_run p k b = true.
Proof.
  induction a as [|c a IH]; intros b H; [exact H|].
  simpl app in H. rewrite no_run_cons in H.
  apply andb_prop in H as [_ H]. apply IH, H.
Qed.

Lemma no_run_nowhere p k s : forall q,
  nowhere (fun _ => starts_run p k) q s = no_run p k s.
Proof.
  induction s as [|c t IH]; intros q; simpl; [reflexivity|].
  rewrite IH. reflexivity.
Qed.

Lemma skip_line_suffix t : exists a, t = a ++ skip_line t.
Proof.
  unfold skip_line. induction t as [|c t [a IH]]; [exists []; reflexivity|].
  simpl. destruct (dot c).
  - exists (c :: a). simpl. f_equal. exact IH.
  - exists []. reflexivity.
Qed.

Lemma lead_skip_line p t :
  (forall c, p c = true -> is_line_terminator c = false) ->
  lead p (skip_line t) = O.
Proof.
  intros Hp. unfold skip_line. induction t as [|c t IH]; [reflexivity|].
  simpl. destruct (dot c) eqn:E; [exact IH|].
  simpl. destruct (p c) eqn:Ep; [|reflexivity].
  apply Hp in Ep. unfold dot in E. rewrite Ep in E. discriminate.
Qed.

Lemma blank_end_spec s : forall p' s',
  blank_end s = Some (p', s') ->
  exists w c, s = w ++ c :: s' /\ p' = Some c /\ cr_or_lf c = true.
Proof.
  induction s as [|c t IH]; intros p' s' H; simpl in H; [discriminate|].
  destruct (is_space c); [|discriminate].
  destruct (blank_end t) as [[q u]|] eqn:E.
  - injection H as -> ->. destruct (IH _ _ eq_refl) as (w & d & -> & Hp & Hd).
    exists (c :: w), d. auto.
  - destruct (cr_or_lf c) eqn:Ec; [|discriminate].
    injection H as <- <-. exists [], c. auto.
Qed.

(** *** Where the deleting patterns match *)

Lemma fence_hit prev s p' s' :
  exec fl_g re_fence prev s = Some (p', s') ->
  (3 <= lead is_tick s)%nat /\ exists w, s = w ++ s' /\ (length s' < length s)%nat.
Proof.
  rewrite exec_fence, <- starts_run_true, starts_fence_run.
  destruct s as [|a [|b [|c t]]]; try discriminate.
  destruct (is_tick a && is_tick b && is_tick c); [|discriminate].
  intros H. injection H as <- <-. split; [reflexivity|].
  exists [a; b; c]. split; [reflexivity | simpl; lia].
Qed.

Lemma fence_miss prev s :
  exec fl_g re_fence prev s = None <-> starts_run is_tick 3 s = false.
Proof.
  rewrite exec_fence, starts_fence_run.
  destruct s as [|a [|b [|c t]]]; try tauto.
  destruct (is_tick a && is_tick b && is_tick c); split; congruence.
Qed.

Lemma comment_hit prev s p' s' :
  exec fl_gm re_comment prev s = Some (p', s') ->
  (2 <= lead is_dash s)%nat /\
  (exists t, s' = skip_line t) /\
  exists w, s = w ++ s' /\ (length s' < length s)%nat.
Proof.
  pose proof (exec_comment prev s) as E.
  rewrite <- starts_run_true, starts_dashes_run.
  destruct s as [|a [|b t]]; try congruence.
  destruct (is_dash a && is_dash b); [|congruence].
  destruct E as [q E]. rewrite E. intros H. injection H as <- <-.
  split; [reflexivity|]. split; [eauto|].
  destruct (skip_line_suffix t) as [w Hw].
  exists (a :: b :: w). split.
  - simpl. do 2 f_equal. exact Hw.
  - apply (f_equal (@length _)) in Hw. rewrite length_app in Hw. simpl. lia.
Qed.

Lemma comment_miss prev s :
  exec fl_gm re_comment prev s = None <-> starts_run is_dash 2 s = false.
Proof.
  pose proof (exec_comment prev s) as E. rewrite starts_dashes_run.
  destruct s as [|a [|b t]]; try tauto.
  destruct (is_dash a && is_dash b); [|tauto].
  destruct E as [q E]. rewrite E. split; congruence.
Qed.

Lemma blank_hit prev s p' s' :
  exec fl_gm re_blank prev s = Some (p', s') ->
  at_bol fl_gm prev = true /\ blank_end s = Some (p', s') /\
  at_bol fl_gm p' = true /\
  exists w, s = w ++ s' /\ (length s' < length s)%nat.
Proof.
  rewrite exec_blank. destruct (at_bol fl_gm prev); [|discriminate].
  intros H. split; [reflexivity|]. split; [exact H|].
  destruct (blank_end_spec _ _ _ H) as (w & c & -> & -> & Hc). split.
  - simpl. apply cr_or_lf_line_terminator, Hc.
  - exists (w ++ [c]). rewrite <- app_assoc. split; [reflexivity|].
    rewrite length_app. simpl. lia.
Qed.

Lemma blank_miss prev s :
  exec fl_gm re_blank prev s = None <-> starts_blank prev s = false.
Proof.
  rewrite exec_blank. unfold starts_blank.
  destruct (at_bol fl_gm prev); [|tauto].
  destruct (blank_end s); simpl; split; congruence.
Qed.

(** *** What each deleting step establishes and keeps *)

Ltac split_run H :=
  rewrite no_run_cons in H; apply andb_prop in H;
  let H1 := fresh H "hd" in destruct H as [H1 H];
  apply negb_true_iff in H1; apply starts_run_false in H1.

Ltac join_run :=
  rewrite no_run_cons; apply andb_true_intro; split;
  [apply negb_true_iff, starts_run_false|].

(** Step 2 leaves no fence behind. *)
Lemma strip_fences_from_no_fence n prev s :
  (length s < n)%nat ->
  no_run is_tick 3 (replace_all_from fl_g re_fence (to "") n prev s) = true.
Proof.
  intros Hn.
  enough ((lead is_tick (replace_all_from fl_g re_fence (to "") n prev s) < 3)%nat /\
          ((lead is_tick s < 3)%nat ->
           lead is_tick (replace_all_from fl_g re_fence (to "") n prev s)
           = lead is_tick s) /\
          no_run is_tick 3 (replace_all_from fl_g re_fence (to "") n prev s) = true)
    by tauto.
  revert n prev s Hn.
  apply (deleting_ind fl_g re_fence) with
    (Q := fun _ s out =>
            (lead is_tick out < 3)%nat /\
            ((lead is_tick s < 3)%nat -> lead is_tick out = lead is_tick s) /\
            no_run is_tick 3 out = true).
  - intros prev s p' s' H. apply fence_hit in H as (_ & w & _ & H). exact H.
  - intros prev _. simpl. repeat split; lia.
  - intros prev c t out He (H1 & H2 & H3).
    apply fence_miss, starts_run_false in He.
    assert (Hc : (lead is_tick (c :: out) < 3)%nat /\
                 lead is_tick (c :: out) = lead is_tick (c :: t)).
    { simpl in *. destruct (is_tick c); [|lia].
      rewrite H2 by lia. lia. }
    destruct Hc as [Hc1 Hc2]. repeat split; [exact Hc1 | intros _; exact Hc2|].
    join_run; [exact Hc1 | exact H3].
  - intros prev s p' s' out He (H1 & H2 & H3).
    apply fence_hit in He as (He & _). repeat split; [exact H1 | lia | exact H3].
Qed.

(** Step 3 leaves no comment marker behind. *)
Lemma strip_comments_from_no_dashes n prev s :
  (length s < n)%nat ->
  no_run is_dash 2 (replace_all_from fl_gm re_comment (to "") n prev s) = true.
Proof.
  intros Hn.
  enough (((1 <= lead is_dash (replace_all_from fl_gm re_comment (to "") n prev s))%nat ->
           (1 <= lead is_dash s)%nat) /\
          no_run is_dash 2 (replace_all_from fl_gm re_comment (to "") n prev s) = true)
    by tauto.
  revert n prev s Hn.
  apply (deleting_ind fl_gm re_comment) with
    (Q := fun _ s out =>
            ((1 <= lead is_dash out)%nat -> (1 <= lead is_dash s)%nat) /\
            no_run is_dash 2 out = true).
  - intros prev s p' s' H. apply comment_hit in H as (_ & _ & w & _ & H). exact H.
  - intros prev _. simpl. split; [lia | reflexivity].
  - intros prev c t out He (H1 & H2).
    apply comment_miss, starts_run_false in He. split.
    + simpl. destruct (is_dash c); lia.
    + join_run; [|exact H2]. simpl in *. destruct (is_dash c); lia.
  - intros prev s p' s' out He (H1 & H2).
    apply comment_hit in He as (He & _). split; [lia | exact H2].
Qed.

Section Keeps.
Variables (p : char -> bool) (k : nat).
Hypothesis p_not_lt : forall c, p c = true -> is_line_terminator c = false.

(** Step 3 creates no run of [p]: what follows a deleted comment is a line
    terminator or the end of the text. *)
Lemma strip_comments_from_keeps n prev s :
  (length s < n)%nat ->
  no_run p k s = true ->
  no_run p k (replace_all_from fl_gm re_comment (to "") n prev s) = true.
Proof.
  intros Hn.
  enough ((lead p (replace_all_from fl_gm re_comment (to "") n prev s)
           <= lead p s)%nat /\
          (no_run p k s = true ->
           no_run p k (replace_all_from fl_gm re_comment (to "") n prev s) = true))
    by tauto.
  revert n prev s Hn.
  apply (deleting_ind fl_gm re_comment) with
    (Q := fun _ s out =>
            (lead p out <= lead p s)%nat /\
            (no_run p k s = true -> no_run p k out = true)).
  - intros prev s p' s' H. apply comment_hit in H as (_ & _ & w & _ & H). exact H.
  - intros prev _. split; [lia | auto].
  - intros prev c t out He (H1 & H2).
    assert (Hc : (lead p (c :: out) <= lead p (c :: t))%nat)
      by (simpl; destruct (p c); lia).
    split; [exact Hc|]. intros H. split_run H.
    join_run; [lia | auto].
  - intros prev s p' s' out He (H1 & H2).
    apply comment_hit in He as (_ & (t & Ht) & w & Hw & _). split.
    + subst s'. rewrite lead_skip_line in H1 by exact p_not_lt. lia.
    + intros H. apply H2. rewrite Hw in H. eapply no_run_suffix, H.
Qed.

(** Step 4 creates no run of [p]: what precedes a deleted blank line is a
    line terminator or the start of the text. *)
Lemma strip_blank_from_keeps n prev s :
  (length s < n)%nat ->
  no_run p k s = true ->
  no_run p k (replace_all_from fl_gm re_blank (to "") n prev s) = true.
Proof.
  intros Hn.
  enough ((starts_blank prev s = false ->
           (lead p (replace_all_from fl_gm re_blank (to "") n prev s)
            <= lead p s)%nat) /\
          (no_run p k s = true ->
           no_run p k (replace_all_from fl_gm re_blank (to "") n prev s) = true))
    by tauto.
  revert n prev s Hn.
  apply (deleting_ind fl_gm re_blank) with
    (Q := fun prev s out =>
            (starts_blank prev s = false -> (lead p out <= lead p s)%nat) /\
            (no_run p k s = true -> no_run p k out = true)).
  - intros prev s p' s' H. apply blank_hit in H as (_ & _ & _ & w & _ & H). exact H.
  - intros prev _. split; [simpl; lia | auto].
  - intros prev c t out He (H1 & H2).
    assert (Hc : (lead p (c :: out) <= lead p (c :: t))%nat).
    { simpl. destruct (p c) eqn:Ep; [|lia].
      apply p_not_lt in Ep.
      assert (starts_blank (Some c) t = false)
        by (unfold starts_blank; simpl; rewrite Ep; reflexivity).
      specialize (H1 H). lia. }
    split; [intros _; exact Hc|]. intros H. split_run H.
    join_run; [lia | auto].
  - intros prev s p' s' out He (H1 & H2).
    apply blank_hit in He as (Hb & He & _ & w & Hw & _). split.
    + unfold starts_blank. rewrite Hb, He. discriminate.
    + intros H. apply H2. rewrite Hw in H. eapply no_run_suffix, H.
Qed.
End Keeps.

(** Step 4 leaves no blank line behind. *)
Lemma strip_blank_from_no_blank n prev s :
  (length s < n)%nat ->
  forall q, at_bol fl_gm q = at_bol fl_gm prev ->
  no_blank q (replace_all_from fl_gm re_blank (to "") n prev s) = true.
Proof.
  intros Hn.
  enough ((blank_end s = None ->
           blank_end (replace_all_from fl_gm re_blank (to "") n prev s) = None) /\
          (forall q, at_bol fl_gm q = at_bol fl_gm prev ->
           no_blank q (replace_all_from fl_gm re_blank (to "") n prev s) = true))
    by tauto.
  revert n prev s Hn.
  apply (deleting_ind fl_gm re_blank) with
    (Q := fun prev s out =>
            (blank_end s = None -> blank_end out = None) /\
            (forall q, at_bol fl_gm q = at_bol fl_gm prev -> no_blank q out = true)).
  - intros prev s p' s' H. apply blank_hit in H as (_ & _ & _ & w & _ & H). exact H.
  - intros prev _. split; [auto|]. intros q _.
    unfold no_blank, starts_blank. simpl. rewrite andb_false_r. reflexivity.
  - intros prev c t out He (H1 & H2).
    assert (Hc : blank_end (c :: t) = None -> blank_end (c :: out) = None).
    { simpl. destruct (is_space c); [|reflexivity].
      destruct (blank_end t); [discriminate|]. rewrite H1 by reflexivity.
      destruct (cr_or_lf c); [discriminate | reflexivity]. }
    split; [exact Hc|]. intros q Hq.
    unfold no_blank. simpl. apply andb_true_intro. split.
    + apply negb_true_iff. apply blank_miss in He.
      unfold starts_blank in *. rewrite Hq.
      destruct (at_bol fl_gm prev); [|reflexivity].
      destruct (blank_end (c :: t)) eqn:E; [discriminate|].
      rewrite (Hc eq_refl). reflexivity.
    + apply H2. reflexivity.
  - intros prev s p' s' out He (H1 & H2).
    apply blank_hit in He as (Hb & He & Hp & _). split.
    + rewrite He. discriminate.
    + intros q Hq. apply H2. congruence.
Qed.

End Steps.

(* ------------------------------------------------------------------ *)
(** ** The closing steps: prefix, truncation, terminator, trim *)

Module Closing.
Import Matching Replace Steps.

Lemma replace_from_eq fl r f prev s :
  replace_from fl r f prev s =
  match exec fl r prev s with
  | Some (_, s') => f (matched s s') ++ s'
  | None =>
    match s with
    | [] => []
    | c :: t => c :: replace_from fl r f (Some c) t
    end
  end.
Proof. destruct s; reflexivity. Qed.

(** Step 5: [^] without the [m] flag is tried at the start of the text only. *)
Lemma not_select_inner f t : forall c,
  replace_from fl_i re_not_select f (Some c) t = t.
Proof.
  induction t as [|d t IH]; intros c; rewrite replace_from_eq, exec_not_select.
  - reflexivity.
  - rewrite IH. reflexivity.
Qed.

Lemma coerce_select_spec s :
  coerce_select s = if select_space s then s else js "SELECT " ++ s.
Proof.
  unfold coerce_select, replace. rewrite replace_from_eq, exec_not_select.
  destruct (select_space s) eqn:E; [|reflexivity].
  destruct s as [|c t]; [reflexivity|]. rewrite not_select_inner. reflexivity.
Qed.

Lemma select_space_iff s : select_space s = true <-> begins_with_select_space s.
Proof.
  unfold select_space, begins_with_select_space. split.
  - destruct s as [|c1 [|c2 [|c3 [|c4 [|c5 [|c6 [|w t]]]]]]]; try discriminate.
    rewrite !andb_true_iff, !lit_matches_letter by lia.
    intros [[[[[[? ?] ?] ?] ?] ?] ?].
    exists c1, c2, c3, c4, c5, c6, w, t. tauto.
  - intros (c1 & c2 & c3 & c4 & c5 & c6 & w & t & -> & H).
    rewrite !andb_true_iff, !lit_matches_letter by lia. tauto.
Qed.

Lemma select_space_coerce s : select_space (coerce_select s) = true.
Proof.
  rewrite coerce_select_spec. destruct (select_space s) eqn:E; [exact E|].
  reflexivity.
Qed.

(** Step 6. *)
Lemma cut_from_spec s : forall prev,
  replace_from fl_0 re_tail (to ";") prev s =
  before_semicolon s ++ (if existsb is_semicolon s then js ";" else []).
Proof.
  induction s as [|c t IH]; intros prev; rewrite replace_from_eq;
    pose proof (exec_tail prev) as E.
  - specialize (E []). simpl in E. rewrite E. reflexivity.
  - specialize (E (c :: t)). simpl in E |- *.
    destruct (is_semicolon c).
    + destruct E as [p' ->]. reflexivity.
    + rewrite E, IH. reflexivity.
Qed.

(** Step 7. *)
Lemma terminate_from_spec s : forall prev,
  replace_from fl_0 re_last (fun m => m ++ js ";") prev s =
  match s with
  | [] => []
  | _ => if is_semicolon (last s 0%N) then s else s ++ js ";"
  end.
Proof.
  induction s as [|c t IH]; intros prev; rewrite replace_from_eq, exec_last.
  - reflexivity.
  - destruct t as [|d t].
    + unfold not_semicolon. fold (is_semicolon c). simpl last.
      destruct (is_semicolon c); reflexivity.
    + rewrite IH. change (last (c :: d :: t) 0%N) with (last (d :: t) 0%N).
      destruct (is_semicolon (last (d :: t) 0%N)); reflexivity.
Qed.

Lemma before_semicolon_none s :
  existsb is_semicolon s = false -> before_semicolon s = s.
Proof.
  induction s as [|c t IH]; [reflexivity|]. simpl.
  destruct (is_semicolon c); [discriminate|]. intros H. f_equal. auto.
Qed.

Lemma last_none s :
  s <> [] -> existsb is_semicolon s = false -> is_semicolon (last s 0%N) = false.
Proof.
  induction s as [|c t IH]; [congruence|]. intros _ H. simpl in H.
  apply orb_false_elim in H as [Hc Ht].
  destruct t as [|d t]; [exact Hc|]. apply IH; [discriminate | exact Ht].
Qed.

Lemma last_snoc (s : jsstring) c d : last (s ++ [c]) d = c.
Proof. apply last_last. Qed.

(** Steps 6 and 7 together: the text up to its first [;], and one [;]. *)
Lemma finish_spec x :
  x <> [] -> terminate (cut_at_semicolon x) = before_semicolon x ++ js ";".
Proof.
  intros Hx. unfold terminate, cut_at_semicolon, replace.
  rewrite cut_from_spec, terminate_from_spec.
  destruct (existsb is_semicolon x) eqn:E.
  - destruct (before_semicolon x ++ js ";") eqn:Eo.
    + destruct (before_semicolon x); discriminate.
    + rewrite <- Eo. change (js ";") with [59%N]. rewrite last_snoc. reflexivity.
  - rewrite app_nil_r, before_semicolon_none by exact E.
    destruct x as [|c t]; [congruence|].
    rewrite last_none by (discriminate || exact E). reflexivity.
Qed.

(** [trim] has nothing to remove between two code units that are not white
    space. *)
Lemma trim_id c s z :
  is_space c = false -> is_space z = false ->
  trim (c :: s ++ [z]) = c :: s ++ [z].
Proof.
  intros Hc Hz. unfold trim. simpl drop_while at 2. rewrite Hc.
  assert (E : rev (c :: s ++ [z]) = z :: rev (c :: s))
    by (rewrite app_comm_cons, rev_app_distr; reflexivity).
  rewrite E. cbn [drop_while]. rewrite Hz, <- E. apply rev_involutive.
Qed.

Lemma before_semicolon_free s : existsb is_semicolon (before_semicolon s) = false.
Proof.
  induction s as [|c t IH]; [reflexivity|]. simpl.
  destruct (is_semicolon c) eqn:E; [reflexivity|]. simpl. rewrite E. exact IH.
Qed.

Lemma before_semicolon_snoc s :
  existsb is_semicolon s = false -> before_semicolon (s ++ js ";") = s.
Proof.
  induction s as [|c t IH]; [reflexivity|]. simpl.
  destruct (is_semicolon c); [discriminate|]. intros H. f_equal. auto.
Qed.

End Closing.

(* ------------------------------------------------------------------ *)
(** ** The guardrail as a whole *)

Module Sanitize.
Import Matching Replace Steps Closing.

Lemma not_space_not_semicolon w : is_space w = true -> is_semicolon w = false.
Proof.
  intros H. destruct (is_semicolon w) eqn:E; [|reflexivity].
  apply semicolon_not_space in E. congruence.
Qed.

(** The prefix [SELECT] and the white space after it hold no [;], so step 6
    keeps them. *)
Lemma before_semicolon_select x :
  select_space x = true ->
  exists c1 c2 c3 c4 c5 c6 w rest,
    x = c1 :: c2 :: c3 :: c4 :: c5 :: c6 :: w :: rest /\
    before_semicolon x =
      c1 :: c2 :: c3 :: c4 :: c5 :: c6 :: w :: before_semicolon rest /\
    letter 83 c1 /\ letter 69 c2 /\ letter 76 c3 /\
    letter 69 c4 /\ letter 67 c5 /\ letter 84 c6 /\ is_space w = true.
Proof.
  intros H. apply select_space_iff in H.
  destruct H as (c1 & c2 & c3 & c4 & c5 & c6 & w & t & -> & H1 & H2 & H3 & H4 & H5 & H6 & Hw).
  exists c1, c2, c3, c4, c5, c6, w, t. split; [reflexivity|]. split; [|tauto].
  simpl.
  rewrite (letter_not_semicolon 83 c1), (letter_not_semicolon 69 c2),
    (letter_not_semicolon 76 c3), (letter_not_semicolon 69 c4),
    (letter_not_semicolon 67 c5), (letter_not_semicolon 84 c6),
    (not_space_not_semicolon w) by (lia || assumption).
  reflexivity.
Qed.

(** The guardrail in one line: steps 1 to 5, then the text before the first
    [;], then [;]; the final [trim] removes nothing. *)
Lemma sanitize_eq s :
  sanitizeSqlQuery s = before_semicolon (coerce_select (strip_all s)) ++ js ";".
Proof.
  unfold sanitizeSqlQuery. fold (strip_all s).
  pose proof (select_space_coerce (strip_all s)) as Hx.
  set (x := coerce_select (strip_all s)) in *.
  rewrite finish_spec by (intros ->; discriminate).
  destruct (before_semicolon_select x Hx)
    as (c1 & c2 & c3 & c4 & c5 & c6 & w & t & _ & -> & H1 & _).
  change (js ";") with [59%N].
  change ((c1 :: ?l) ++ [59%N]) with (c1 :: l ++ [59%N]).
  apply trim_id; [|reflexivity].
  apply (letter_not_space 83); [lia | exact H1].
Qed.

(** *** The prefix and the terminator of the result *)

Lemma sanitize_select_space s : select_space (sanitizeSqlQuery s) = true.
Proof.
  rewrite sanitize_eq.
  destruct (before_semicolon_select _ (select_space_coerce (strip_all s)))
    as (c1 & c2 & c3 & c4 & c5 & c6 & w & t & _ & -> & H).
  apply select_space_iff.
  exists c1, c2, c3, c4, c5, c6, w, (before_semicolon t ++ js ";").
  split; [reflexivity | exact H].
Qed.

Lemma count_semicolon_free s :
  existsb is_semicolon s = false -> count_occ N.eq_dec s 59%N = O.
Proof.
  induction s as [|c t IH]; [reflexivity|]. simpl. intros H.
  apply orb_false_elim in H as [Hc Ht].
  destruct (N.eq_dec c 59) as [->|_]; [discriminate | auto].
Qed.

(** *** What survives into the result *)

Lemma lead_before_semicolon p x :
  p 59%N = false ->
  (lead p (before_semicolon x ++ js ";") <= lead p x)%nat.
Proof.
  intros Hp. change (js ";") with [59%N].
  induction x as [|c t IH]; simpl.
  - rewrite Hp. lia.
  - destruct (is_semicolon c) eqn:E; simpl.
    + rewrite Hp. lia.
    + destruct (p c); lia.
Qed.

Lemma no_run_before_semicolon p k x :
  p 59%N = false -> (0 < k)%nat ->
  no_run p k x = true -> no_run p k (before_semicolon x ++ js ";") = true.
Proof.
  intros Hp Hk.
  assert (Hend : no_run p k (js ";") = true).
  { unfold no_run, starts_run. simpl. rewrite Hp.
    replace (k <=? 0)%nat with false by (symmetry; apply Nat.leb_gt; lia).
    reflexivity. }
  induction x as [|c t IH]; intros H; [exact Hend|].
  pose proof (lead_before_semicolon p (c :: t) Hp) as Hl.
  cbn [before_semicolon] in Hl |- *. destruct (is_semicolon c); [exact Hend|].
  cbn [app] in Hl |- *. split_run H. join_run; [lia | auto].
Qed.

Lemma no_run_plain p k c y :
  p c = false -> (0 < k)%nat -> no_run p k y = true -> no_run p k (c :: y) = true.
Proof.
  intros Hc Hk H. join_run; [|exact H]. simpl. rewrite Hc. exact Hk.
Qed.

Lemma no_run_coerce p k y :
  (0 < k)%nat ->
  forallb (fun c => negb (p c)) (js "SELECT ") = true ->
  no_run p k y = true -> no_run p k (coerce_select y) = true.
Proof.
  intros Hk Hp H. rewrite coerce_select_spec.
  destruct (select_space y); [exact H|].
  simpl in Hp. repeat (apply andb_prop in Hp; destruct Hp as [?H Hp]).
  simpl app.
  repeat (apply no_run_plain; [apply negb_true_iff; assumption | exact Hk |]).
  exact H.
Qed.

Lemma no_blank_inside p c y :
  at_bol fl_gm p = false -> no_blank (Some c) y = true -> no_blank p (c :: y) = true.
Proof.
  intros Hp H. unfold no_blank in *. simpl. unfold starts_blank at 1.
  rewrite Hp. exact H.
Qed.

Lemma no_blank_weaken p q y :
  at_bol fl_gm p = false -> no_blank q y = true -> no_blank p y = true.
Proof.
  intros Hp H. unfold no_blank in *.
  destruct y as [|c t]; simpl in *; unfold starts_blank at 1; rewrite Hp;
    apply andb_prop in H as [_ H]; exact H.
Qed.

Lemma no_blank_plain p c y :
  is_space c = false -> no_blank (Some c) y = true -> no_blank p (c :: y) = true.
Proof.
  intros Hc H. unfold no_blank in *. simpl. unfold starts_blank at 1.
  simpl. rewrite Hc, andb_false_r. exact H.
Qed.

Lemma no_blank_coerce y :
  no_blank None y = true -> no_blank None (coerce_select y) = true.
Proof.
  intros H. rewrite coerce_select_spec.
  destruct (select_space y); [exact H|].
  simpl app. apply no_blank_plain; [reflexivity|].
  repeat (apply no_blank_inside; [reflexivity|]).
  eapply no_blank_weaken, H. reflexivity.
Qed.

Lemma blank_end_before_semicolon x :
  blank_end x = None -> blank_end (before_semicolon x ++ js ";") = None.
Proof.
  change (js ";") with [59%N].
  induction x as [|c t IH]; [reflexivity|]. simpl.
  destruct (is_semicolon c); [reflexivity|]. simpl.
  destruct (is_space c); [|reflexivity].
  destruct (blank_end t); [discriminate|]. rewrite IH by reflexivity.
  destruct (cr_or_lf c); [discriminate | reflexivity].
Qed.

Lemma nowhere_cons P q c t :
  nowhere P q (c :: t) = negb (P q (c :: t)) && nowhere P (Some c) t.
Proof. reflexivity. Qed.

Lemma no_blank_before_semicolon x : forall q,
  no_blank q x = true -> no_blank q (before_semicolon x ++ js ";") = true.
Proof.
  assert (Hend : forall q, no_blank q (js ";") = true).
  { intros q. apply no_blank_plain; reflexivity. }
  unfold no_blank in *.
  induction x as [|c t IH]; intros q H; [apply Hend|].
  pose proof (blank_end_before_semicolon (c :: t)) as Hb.
  cbn [before_semicolon] in Hb |- *.
  destruct (is_semicolon c); [apply Hend|].
  cbn [app] in Hb |- *. rewrite nowhere_cons in H |- *.
  apply andb_prop in H as [H1 H2]. apply andb_true_intro. split; [|auto].
  apply negb_true_iff in H1. apply negb_true_iff.
  unfold starts_blank in *. destruct (at_bol fl_gm q); [|reflexivity].
  destruct (blank_end (c :: t)) eqn:E; [discriminate|].
  rewrite (Hb eq_refl). reflexivity.
Qed.

End Sanitize.

(* ------------------------------------------------------------------ *)
(** ** The model on known inputs *)

Module Examples.

(** Global replace with matches that may be empty, as in
    ['baaac'.replace(/a*/g, '-')]. *)
Example replace_all_star :
  replace_all fl_g (Star (Lit 97%N)) (to "-") (js "baaac") = js "-b--c-".
Proof. reflexivity. Qed.

(** A greedy star gives back what the rest of the pattern needs, as in
    ['xaaab!'.replace(/a*ab/, '-')]. *)
Example replace_backtracks :
  replace fl_0 (Cat (Star (Lit 97%N)) (lits (js "ab"))) (to "-") (js "xaaab!")
  = js "x-!".
Proof. reflexivity. Qed.

(** Between CR and LF there is a line start: the LF alone is a blank line. *)
Example blank_line_crlf :
  strip_blank_lines (js "a" ++ [13; 10]%N ++ js "b") = js "a" ++ [13%N] ++ js "b".
Proof. vm_compute. reflexivity. Qed.

Example truncation :
  sanitizeSqlQuery (js "SELECT 1; DROP TABLE t;") = js "SELECT 1;".
Proof. vm_compute. reflexivity. Qed.

Example trailing_comment :
  sanitizeSqlQuery (js "SELECT * FROM t -- get all rows") = js "SELECT * FROM t ;".
Proof. vm_compute. reflexivity. Qed.

Example empty_candidate : sanitizeSqlQuery (js "") = js "SELECT ;".
Proof. vm_compute. reflexivity. Qed.

Example parseInt_port : Demo.parseInt (js "3306") = Some 3306%Z.
Proof. reflexivity. Qed.

Example parseInt_prefix : Demo.parseInt (js " 42 rows") = Some 42%Z.
Proof. reflexivity. Qed.

Example parseInt_hex : Demo.parseInt (js "0x1F") = Some 31%Z.
Proof. reflexivity. Qed.

Example parseInt_negative : Demo.parseInt (js "-7") = Some (-7)%Z.
Proof. reflexivity. Qed.

Example parseInt_nan : Demo.parseInt (js "many") = None.
Proof. reflexivity. Qed.

End Examples.

(* ------------------------------------------------------------------ *)
(** ** Results on the guardrail *)

Import Matching Replace Steps Closing Sanitize.

Lemma strip_all_fixed out :
  no_run is_tick 3 out = true ->
  no_run is_dash 2 out = true ->
  no_blank None out = true ->
  strip_all out = out.
Proof.
  intros Ht Hd Hb. unfold strip_all.
  assert (E1 : strip_sql_fences out = out).
  { apply replace_all_nowhere with (P := fun _ => starts_run is_tick 3).
    - intros prev s H. destruct (exec fl_gi re_fence_sql prev s) eqn:E; [|reflexivity].
      apply exec_fence_sql in E. congruence.
    - rewrite no_run_nowhere. exact Ht. }
  rewrite E1.
  assert (E2 : strip_fences out = out).
  { apply replace_all_nowhere with (P := fun _ => starts_run is_tick 3).
    - intros prev s H. apply fence_miss, H.
    - rewrite no_run_nowhere. exact Ht. }
  rewrite E2.
  assert (E3 : strip_comments out = out).
  { apply replace_all_nowhere with (P := fun _ => starts_run is_dash 2).
    - intros prev s H. apply comment_miss, H.
    - rewrite no_run_nowhere. exact Hd. }
  rewrite E3.
  apply replace_all_nowhere with (P := starts_blank).
  - intros prev s H. apply blank_miss, H.
  - exact Hb.
Qed.

(** What steps 1 to 4 leave: no fence, no comment marker, no blank line. *)
Lemma strip_all_clean s :
  no_run is_tick 3 (strip_all s) = true /\
  no_run is_dash 2 (strip_all s) = true /\
  no_blank None (strip_all s) = true.
Proof.
  unfold strip_all, strip_blank_lines, strip_comments, replace_all.
  set (a := strip_fences (strip_sql_fences s)).
  set (b := replace_all_from fl_gm re_comment (to "") (S (length a)) None a).
  repeat split.
  - apply strip_blank_from_keeps; [apply tick_not_line_terminator | lia |].
    apply strip_comments_from_keeps; [apply tick_not_line_terminator | lia |].
    apply strip_fences_from_no_fence. lia.
  - apply strip_blank_from_keeps; [apply dash_not_line_terminator | lia |].
    apply strip_comments_from_no_dashes. lia.
  - apply strip_blank_from_no_blank; [lia | reflexivity].
Qed.

Lemma sanitize_clean s :
  no_run is_tick 3 (sanitizeSqlQuery s) = true /\
  no_run is_dash 2 (sanitizeSqlQuery s) = true /\
  no_blank None (sanitizeSqlQuery s) = true.
Proof.
  rewrite sanitize_eq. destruct (strip_all_clean s) as (Ht & Hd & Hb).
  repeat split.
  - apply no_run_before_semicolon; [reflexivity | lia |].
    apply no_run_coerce; [lia | reflexivity | exact Ht].
  - apply no_run_before_semicolon; [reflexivity | lia |].
    apply no_run_coerce; [lia | reflexivity | exact Hd].
  - apply no_blank_before_semicolon, no_blank_coerce, Hb.
Qed.

(** C5. The guardrail is idempotent: sanitizing a sanitized statement gives
    the same statement, for every candidate text. *)
Theorem C5_sanitize_idempotent (s : jsstring) :
  sanitizeSqlQuery (sanitizeSqlQuery s) = sanitizeSqlQuery s.
Proof.
  destruct (sanitize_clean s) as (Ht & Hd & Hb).
  pose proof (sanitize_select_space s) as Hs.
  rewrite (sanitize_eq (sanitizeSqlQuery s)).
  rewrite strip_all_fixed by assumption.
  rewrite coerce_select_spec, Hs.
  rewrite (sanitize_eq s) at 1.
  rewrite before_semicolon_snoc by apply before_semicolon_free.
  symmetry. apply sanitize_eq.
Qed.

(** C6. For every candidate text the sanitized statement holds exactly one
    [;], and that [;] is its last code unit. *)
Theorem C6_single_terminator (s : jsstring) :
  count_occ N.eq_dec (sanitizeSqlQuery s) 59%N = 1%nat /\
  last (sanitizeSqlQuery s) 0%N = 59%N /\
  exists body, sanitizeSqlQuery s = body ++ js ";" /\ ~ In 59%N body.
Proof.
  rewrite sanitize_eq. set (body := before_semicolon _).
  assert (Hf : count_occ N.eq_dec body 59%N = O)
    by apply count_semicolon_free, before_semicolon_free.
  repeat split.
  - rewrite count_occ_app, Hf. reflexivity.
  - apply last_last.
  - exists body. split; [reflexivity|].
    intros Hin. apply (count_occ_In N.eq_dec) in Hin. lia.
Qed.

(** C7. For every candidate text the sanitized statement begins with
    [SELECT] in some letter case, whether the candidate had it or step 4
    prepended it. *)
Theorem C7_begins_with_select (s : jsstring) :
  begins_with_select (sanitizeSqlQuery s).
Proof.
  pose proof (sanitize_select_space s) as H. apply select_space_iff in H.
  destruct H as (c1 & c2 & c3 & c4 & c5 & c6 & w & t & E & H).
  exists c1, c2, c3, c4, c5, c6, (w :: t). split; [exact E | tauto].
Qed.



(** C3, as the code has it.  Step 4 prepends [SELECT ] exactly when the text
    it receives (not trimmed) does not begin with [SELECT], in any letter
    case, followed by a white-space code unit; and [name, age FROM users]
    sanitizes to [SELECT name, age FROM users;]. *)
Theorem C3_select_prefix_rule :
  (forall t,
     (begins_with_select_space t /\ coerce_select t = t) \/
     (~ begins_with_select_space t /\ coerce_select t = js "SELECT " ++ t)) /\
  sanitizeSqlQuery (js "name, age FROM users") = js "SELECT name, age FROM users;".
Proof.
  split; [|vm_compute; reflexivity].
  intros t. rewrite coerce_select_spec.
  destruct (select_space t) eqn:E.
  - left. split; [apply select_space_iff, E | reflexivity].
  - right. split; [|reflexivity].
    intros H. apply select_space_iff in H. congruence.
Qed.

(** C3, as the specification states it, fails twice: a text that begins with
    [SELECT] followed by something else than white space gets the prefix, and
    so does a text that begins with [SELECT] only after trimming. *)
Lemma C3_select_without_space_is_prefixed :
  (begins_with_select (trim (js "SELECT* FROM t")) /\
   coerce_select (js "SELECT* FROM t") = js "SELECT SELECT* FROM t" /\
   sanitizeSqlQuery (js "SELECT* FROM t") = js "SELECT SELECT* FROM t;") /\
  (begins_with_select (trim (js " SELECT 1")) /\
   coerce_select (js " SELECT 1") = js "SELECT  SELECT 1" /\
   sanitizeSqlQuery (js " SELECT 1") = js "SELECT  SELECT 1;").
Proof.
  split; (split; [|split; vm_compute; reflexivity]).
  - exists 83%N, 69%N, 76%N, 69%N, 67%N, 84%N, (js "* FROM t").
    unfold letter. repeat split; auto.
  - exists 83%N, 69%N, 76%N, 69%N, 67%N, 84%N, (js " 1").
    unfold letter. repeat split; auto.
Qed.

(** C4, as the code has it.  The fenced input sanitizes to [SELECT 1], a line
    feed, and [;]: the terminator is appended after the line feed that ended
    the statement's line, and the final trim has nothing to remove. *)
Theorem C4_fenced_select :
  sanitizeSqlQuery fenced_select_1 = js "SELECT 1" ++ nl ++ js ";".
Proof. vm_compute. reflexivity. Qed.

(** C4, as the specification states it, fails: the result is not
    [SELECT 1;]. *)
Lemma C4_fenced_select_not_exact :
  sanitizeSqlQuery fenced_select_1 <> js "SELECT 1;".
Proof. vm_compute. discriminate. Qed.

(** C9. Comment stripping is textual: in a [SELECT] statement whose quoted
    value holds [--], step 3 deletes from that [--] to the end of the line,
    closing quote included, and the sanitized statement differs from the
    candidate inside the literal. *)
Theorem C9_comment_inside_literal :
  strip_comments literal_with_dashes
    = js "SELECT * FROM t WHERE note = 'a" ++ nl ++ js "LIMIT 5;" /\
  sanitizeSqlQuery literal_with_dashes
    = js "SELECT * FROM t WHERE note = 'a" ++ nl ++ js "LIMIT 5;" /\
  sanitizeSqlQuery literal_with_dashes <> literal_with_dashes.
Proof. repeat split; vm_compute; (reflexivity || discriminate). Qed.

(* ------------------------------------------------------------------ *)
(** ** Results on the pipeline *)

Section PipelineResults.
Variables (number rows : Type).
Variable parseInt : jsstring -> number.
Variable stringify : rows -> jsstring.
Variable w : World number rows.

(** C2. The completion request does not depend on the row cap: whatever
    number [generateSqlQuery] is given, it makes the same call and returns
    the same result; two inputs that differ only in [maxRows] run alike; and
    the system instruction written without a schema holds no digit at all,
    so no row count. *)
Theorem C2_row_cap_unused :
  (forall apiKey schemaInfo question (m1 m2 : number),
     generateSqlQuery w apiKey schemaInfo question m1
     = generateSqlQuery w apiKey schemaInfo question m2) /\
  (forall input a b,
     handler parseInt stringify w (set_maxRows input a)
     = handler parseInt stringify w (set_maxRows input b)) /\
  existsb is_digit (system_instruction (js "[]")) = false.
Proof.
  split; [reflexivity|]. split; [reflexivity|]. vm_compute. reflexivity.
Qed.

(** C8, as the code has it.  When the connection opens and the model's
    response carries no usable text, the run makes three external calls:
    the connection is opened first, then the completion is requested, then
    the connection is closed; no query is executed; and the error reported
    is the generation failure (or the error of closing the connection, if
    closing throws). *)
Theorem C8_generation_failure (input : Input) (c : option jsstring) :
  createConnection w (connection_options parseInt input) = None ->
  createCompletion w (openaiApiKey input)
    (chat_request (or_else (schema input) (js "[]")) (question input)) = inr c ->
  no_usable_text c = true ->
  fst (handler parseInt stringify w input)
    = [ Connect (connection_options parseInt input);
        Complete (openaiApiKey input)
          (chat_request (or_else (schema input) (js "[]")) (question input));
        End ] /\
  existsb is_query (fst (handler parseInt stringify w input)) = false /\
  snd (handler parseInt stringify w input)
    = inl (match connectionEnd w with
           | Some e => e
           | None => generation_failure
           end).
Proof.
  intros Hconn Hcomp Hc.
  assert (E : handler parseInt stringify w input
              = ([ Connect (connection_options parseInt input);
                   Complete (openaiApiKey input)
                     (chat_request (or_else (schema input) (js "[]"))
                                   (question input));
                   End ],
                 inl (match connectionEnd w with
                      | Some e => e
                      | None => generation_failure
                      end))).
  { unfold handler, generateSqlQuery, call, bind, try_finally, thrown.
    rewrite Hconn, Hcomp. unfold no_usable_text in Hc.
    destruct (option_map trim c) as [[|x t]|]; try discriminate;
      simpl; destruct (connectionEnd w); reflexivity. }
  rewrite E. repeat split; reflexivity.
Qed.

(** C10. The text [[]] is the no-schema sentinel: a request whose schema is
    [[]] runs exactly like the same request without a schema, the system
    instruction is the same, and nothing is interpolated for it. *)
Theorem C10_brackets_mean_no_schema :
  (forall input,
     handler parseInt stringify w (set_schema input (Some (js "[]")))
     = handler parseInt stringify w (set_schema input None)) /\
  system_instruction (or_else (Some (js "[]")) (js "[]"))
    = system_instruction (or_else None (js "[]")) /\
  schema_line (or_else (Some (js "[]")) (js "[]")) = js "".
Proof. repeat split. Qed.
End PipelineResults.

(** C8 at a concrete request: the model returns no content. *)
Lemma C8_generation_failure_witness :
  createConnection silent_model (connection_options Demo.parseInt request) = None /\
  createCompletion silent_model (openaiApiKey request)
    (chat_request (or_else (schema request) (js "[]")) (question request)) = inr None /\
  no_usable_text None = true /\
  existsb is_query (fst (run silent_model request)) = false /\
  snd (run silent_model request) = inl generation_failure.
Proof.
  split; [reflexivity|]. split; [reflexivity|]. split; [reflexivity|].
  pose proof (C8_generation_failure (option Z) Demo.rows Demo.parseInt Demo.stringify silent_model
                request None eq_refl eq_refl eq_refl) as (_ & H2 & H3).
  split; [exact H2 | exact H3].
Defined.

(** C8, as the specification states it, fails twice.  In a run where the
    model returns no content the failure is reported, but the database has
    been contacted before: the connection is opened, and closed again.  And
    when closing the connection throws, the error reported is that one, not
    the generation failure. *)
Lemma C8_database_contacted_first :
  no_usable_text None = true /\
  fst (run silent_model request)
    = [ Connect (connection_options Demo.parseInt request);
        Complete (openaiApiKey request)
          (chat_request (js "[]") (question request));
        End ] /\
  snd (run silent_model request) = inl generation_failure /\
  existsb is_database_event (fst (run silent_model request)) = true /\
  snd (run silent_unclosable request) = inl (js "Connection lost") /\
  snd (run silent_unclosable request) <> inl generation_failure.
Proof. repeat split. vm_compute. discriminate. Qed.


(* ------------------------------------------------------------------ *)
(** ** More on the guardrail: what the result never holds *)

Module Safety.

Lemma no_run_head p k s : no_run p k s = true -> starts_run p k s = false.
Proof.
  destruct s; simpl; intros H; apply andb_prop in H as [H _];
    apply negb_true_iff in H; exact H.
Qed.

Lemma lead_run p x b : forallb p x = true -> (length x <= lead p (x ++ b))%nat.
Proof.
  induction x as [|c x IH]; simpl; [lia|].
  intros H. apply andb_prop in H as [Hc Hx]. rewrite Hc.
  specialize (IH Hx). lia.
Qed.

(** A text without runs of [k] code units of class [p] holds no text made of
    [k] such code units. *)
Lemma no_run_infix p k x s :
  length x = k -> forallb p x = true -> no_run p k s = true -> ~ infix x s.
Proof.
  intros Hk Hx H (a & b & ->).
  apply no_run_suffix, no_run_head, starts_run_false in H.
  pose proof (lead_run p x b Hx). lia.
Qed.

Lemma nowhere_head P prev s : nowhere P prev s = true -> P prev s = false.
Proof.
  destruct s; simpl; intros H; apply andb_prop in H as [H _];
    apply negb_true_iff in H; exact H.
Qed.

Lemma nowhere_suffix P a : forall prev b,
  nowhere P prev (a ++ b) = true ->
  nowhere P (fold_left (fun _ c => Some c) a prev) b = true.
Proof.
  induction a as [|c a IH]; intros prev b H; [exact H|].
  simpl app in H. rewrite nowhere_cons in H.
  apply andb_prop in H as [_ H]. apply IH, H.
Qed.

Lemma at_line_start_bol a :
  at_line_start a -> at_bol fl_gm (fold_left (fun _ c => Some c) a None) = true.
Proof.
  intros [->|(a' & c & -> & Hc)]; [reflexivity|].
  rewrite fold_left_app. simpl. exact Hc.
Qed.

Lemma blank_end_run w c b :
  forallb is_space w = true -> cr_or_lf c = true ->
  is_some (blank_end (w ++ c :: b)) = true.
Proof.
  intros Hw Hc. induction w as [|x w IH]; simpl.
  - rewrite (cr_or_lf_space c Hc), Hc. destruct (blank_end b); reflexivity.
  - simpl in Hw. apply andb_prop in Hw as [Hx Hw]. rewrite Hx.
    specialize (IH Hw). destruct (blank_end (w ++ c :: b)); [reflexivity|discriminate].
Qed.

Lemma no_blank_no_blank_run s : no_blank None s = true -> ~ has_blank_run s.
Proof.
  intros H (a & w & c & b & -> & Ha & Hw & Hc).
  apply nowhere_suffix, nowhere_head in H. unfold starts_blank in H.
  rewrite (at_line_start_bol a Ha), (blank_end_run w c b Hw Hc) in H.
  discriminate.
Qed.

Lemma sanitize_terminator s :
  count_occ N.eq_dec (sanitizeSqlQuery s) 59%N = 1%nat /\
  last (sanitizeSqlQuery s) 0%N = 59%N.
Proof.
  rewrite sanitize_eq. split.
  - rewrite count_occ_app, count_semicolon_free by apply before_semicolon_free.
    reflexivity.
  - apply last_last.
Qed.

Lemma sanitize_begins s : begins_with_select (sanitizeSqlQuery s).
Proof.
  pose proof (sanitize_select_space s) as H. apply select_space_iff in H.
  destruct H as (c1 & c2 & c3 & c4 & c5 & c6 & w & t & E & H).
  exists c1, c2, c3, c4, c5, c6, (w :: t). split; [exact E | tauto].
Qed.

Lemma sanitize_safe s : safe_statement (sanitizeSqlQuery s).
Proof.
  destruct (sanitize_clean s) as (Ht & Hd & _).
  destruct (sanitize_terminator s) as (Hc & Hl).
  unfold safe_statement. repeat split; try assumption.
  - apply sanitize_begins.
  - apply (no_run_infix is_dash 2); [reflexivity | reflexivity | exact Hd].
  - apply (no_run_infix is_tick 3); [reflexivity | reflexivity | exact Ht].
Qed.

End Safety.
Import Safety.

(** X9. Whatever the candidate, the sanitized statement holds no fence
    marker, no comment marker, and no place where the blank-line pattern
    matches: no line start from which white space runs up to a CR or LF. *)
Theorem X9_nothing_left_to_strip (s : jsstring) :
  ~ infix (js "```") (sanitizeSqlQuery s) /\
  ~ infix (js "--") (sanitizeSqlQuery s) /\
  ~ has_blank_run (sanitizeSqlQuery s).
Proof.
  destruct (sanitize_safe s) as (_ & _ & _ & Hd & Ht).
  destruct (sanitize_clean s) as (_ & _ & Hb).
  repeat split; [exact Ht | exact Hd | apply no_blank_no_blank_run, Hb].
Qed.

(* ------------------------------------------------------------------ *)
(** ** More on the pipeline: the calls of a run and what it reports *)

Module TrimFacts.

Lemma drop_while_head p s c t : drop_while p s = c :: t -> p c = false.
Proof.
  induction s as [|x s IH]; simpl; [discriminate|].
  destruct (p x) eqn:E; [exact IH|]. intros H. injection H as <- _. exact E.
Qed.

Lemma drop_while_suffix p s : exists a, s = a ++ drop_while p s.
Proof.
  induction s as [|x s [a IH]]; [exists []; reflexivity|]. simpl.
  destruct (p x); [|exists []; reflexivity].
  exists (x :: a). simpl. f_equal. exact IH.
Qed.

(** [trim] leaves the empty text or a text that neither starts nor ends with
    white space. *)
Lemma trim_ends s c t :
  trim s = c :: t ->
  is_space c = false /\ is_space (last (c :: t) 0%N) = false.
Proof.
  unfold trim. set (a := drop_while is_space s).
  destruct (drop_while is_space (rev a)) as [|z b] eqn:Eb; [discriminate|].
  pose proof (drop_while_head _ _ _ _ Eb) as Hz.
  destruct (drop_while_suffix is_space (rev a)) as [d Hd]. rewrite Eb in Hd.
  apply (f_equal (@rev _)) in Hd. rewrite rev_involutive, rev_app_distr in Hd.
  intros H. split.
  - rewrite H in Hd. subst a. simpl in Hd.
    apply drop_while_head in Hd. exact Hd.
  - rewrite <- H. simpl rev. rewrite last_last. exact Hz.
Qed.

End TrimFacts.
Import TrimFacts.

Section MorePipelineResults.
Variables (number rows : Type).
Variable parseInt : jsstring -> number.
Variable stringify : rows -> jsstring.
Variable w : World number rows.

(** X1. The external calls of a request.  When the connection attempt throws,
    nothing else is called and that error is reported.  Otherwise exactly one
    completion is requested, at most one query is executed, and its text is
    the sanitized, trimmed content of the response; the connection is closed
    last, on every path. *)
Theorem X1_calls_of_a_run (input : Input) :
  match createConnection w (connection_options parseInt input) with
  | Some e =>
    handler parseInt stringify w input
    = ([Connect (connection_options parseInt input)], inl e)
  | None =>
    fst (handler parseInt stringify w input)
    = [ Connect (connection_options parseInt input);
        Complete (openaiApiKey input)
          (chat_request (or_else (schema input) (js "[]")) (question input));
        End ]
    \/
    exists c,
      createCompletion w (openaiApiKey input)
        (chat_request (or_else (schema input) (js "[]")) (question input))
      = inr (Some c) /\
      fst (handler parseInt stringify w input)
      = [ Connect (connection_options parseInt input);
          Complete (openaiApiKey input)
            (chat_request (or_else (schema input) (js "[]")) (question input));
          Query (sanitizeSqlQuery (trim c));
          End ]
  end.
Proof.
  unfold handler, generateSqlQuery, call, bind, try_finally, try_catch, thrown,
    ret, throw.
  destruct (createConnection w _); [reflexivity|].
  destruct (createCompletion w _ _) as [e|[c|]] eqn:Ec; cbn [option_map].
  - left. destruct (connectionEnd w); reflexivity.
  - destruct (trim c) as [|x t] eqn:Et.
    + left. destruct (connectionEnd w); reflexivity.
    + right. exists c. split; [reflexivity|]. rewrite Et.
      destruct (connectionQuery w _); destruct (connectionEnd w); reflexivity.
  - left. destruct (connectionEnd w); reflexivity.
Qed.

(** X3. Only sanitized statements reach the database: every statement a run
    sends begins with [SELECT], holds one [;], its last code unit, and holds
    neither a comment marker nor a fence; and a run sends at most one. *)
Theorem X3_only_safe_queries (input : Input) :
  Forall safe_statement (queries (fst (handler parseInt stringify w input))) /\
  (length (queries (fst (handler parseInt stringify w input))) <= 1)%nat.
Proof.
  unfold handler, generateSqlQuery, call, bind, try_finally, try_catch, thrown,
    ret, throw.
  destruct (createConnection w _); [split; [simpl; constructor | simpl; lia]|].
  destruct (createCompletion w _ _) as [e|[c|]]; cbn [option_map].
  - destruct (connectionEnd w); (split; [simpl; constructor | simpl; lia]).
  - destruct (trim c) as [|x t].
    + destruct (connectionEnd w); (split; [simpl; constructor | simpl; lia]).
    + destruct (connectionQuery w _); destruct (connectionEnd w);
        (split; [simpl; repeat constructor; apply sanitize_safe | simpl; lia]).
  - destruct (connectionEnd w); (split; [simpl; constructor | simpl; lia]).
Qed.

(** X2. An error thrown while closing the connection replaces whatever the
    request had produced, a response as well as an earlier error. *)
Theorem X2_close_error_wins (input : Input) (e : jsstring) :
  createConnection w (connection_options parseInt input) = None ->
  connectionEnd w = Some e ->
  snd (handler parseInt stringify w input) = inl e.
Proof.
  intros Hc He.
  unfold handler, generateSqlQuery, call, bind, try_finally, try_catch, thrown,
    ret, throw.
  rewrite Hc, He.
  destruct (createCompletion w _ _) as [e'|[c|]]; cbn [option_map];
    try reflexivity.
  destruct (trim c) as [|x t]; [reflexivity|].
  destruct (connectionQuery w _); reflexivity.
Qed.

(** X4. When the database rejects the statement with message [e], the run
    has opened the connection, requested the completion, sent the sanitized
    statement and closed the connection, and it reports the guidance text
    followed by [e]. *)
Theorem X4_query_failure (input : Input) (c e : jsstring) :
  createConnection w (connection_options parseInt input) = None ->
  createCompletion w (openaiApiKey input)
    (chat_request (or_else (schema input) (js "[]")) (question input))
  = inr (Some c) ->
  trim c <> [] ->
  connectionQuery w (sanitizeSqlQuery (trim c)) = inl e ->
  connectionEnd w = None ->
  handler parseInt stringify w input
  = ([ Connect (connection_options parseInt input);
       Complete (openaiApiKey input)
         (chat_request (or_else (schema input) (js "[]")) (question input));
       Query (sanitizeSqlQuery (trim c));
       End ],
     inl (js "Query failed. Please ensure your question uses existing table and column names. If possible, provide the database schema in the 'schema' parameter. Error: "
          ++ e)).
Proof.
  intros Hc Hm Ht Hq He.
  unfold handler, generateSqlQuery, call, bind, try_finally, try_catch, thrown,
    ret, throw.
  rewrite Hc, Hm. cbn [option_map].
  destruct (trim c) as [|x t]; [congruence|].
  rewrite Hq, He. reflexivity.
Qed.

(** X5. When the database returns rows, the run reports them serialized, and
    puts the caller's instructions before them as a directive when there are
    any; instructions that are the empty text count as none. *)
Theorem X5_success (input : Input) (c : jsstring) (r : rows) :
  createConnection w (connection_options parseInt input) = None ->
  createCompletion w (openaiApiKey input)
    (chat_request (or_else (schema input) (js "[]")) (question input))
  = inr (Some c) ->
  trim c <> [] ->
  connectionQuery w (sanitizeSqlQuery (trim c)) = inr r ->
  connectionEnd w = None ->
  exists out,
    handler parseInt stringify w input
    = ([ Connect (connection_options parseInt input);
         Complete (openaiApiKey input)
           (chat_request (or_else (schema input) (js "[]")) (question input));
         Query (sanitizeSqlQuery (trim c));
         End ],
       inr out) /\
    response out
    = match instructions input with
      | Some (x :: t) =>
        js "Instructions for the following content: " ++ (x :: t) ++ nl ++ nl
      | _ => []
      end ++ stringify r.
Proof.
  intros Hc Hm Ht Hq He.
  exists (formatResponse stringify r (instructions input)). split.
  - unfold handler, generateSqlQuery, call, bind, try_finally, try_catch, thrown,
      ret, throw.
    rewrite Hc, Hm. cbn [option_map].
    destruct (trim c) as [|x t]; [congruence|].
    rewrite Hq, He. reflexivity.
  - unfold formatResponse. destruct (instructions input) as [[|x t]|];
      try reflexivity.
    cbn [response]. rewrite <- !app_assoc. reflexivity.
Qed.

(** X6. What [generateSqlQuery] returns is the content of the response
    trimmed: it is not empty, and neither starts nor ends with white
    space. *)
Theorem X6_generated_text_is_trimmed
  (apiKey schemaInfo question : jsstring) (maxRows : number) (text : jsstring) :
  snd (generateSqlQuery w apiKey schemaInfo question maxRows) = inr text ->
  (exists c,
     createCompletion w apiKey (chat_request schemaInfo question) = inr (Some c) /\
     text = trim c) /\
  text <> [] /\
  is_space (hd 0%N text) = false /\
  is_space (last text 0%N) = false.
Proof.
  unfold generateSqlQuery, call, bind, ret, throw.
  destruct (createCompletion w _ _) as [e|[c|]]; cbn [option_map];
    try discriminate.
  destruct (trim c) as [|x t] eqn:Et; [discriminate|].
  cbn [snd app]. intros H. injection H as <-.
  destruct (trim_ends c x t Et) as [H1 H2].
  split; [exists c; split; [reflexivity | symmetry; exact Et]|].
  split; [discriminate|]. split; [exact H1 | exact H2].
Qed.

(** X7. Each optional parameter given as the empty text is treated as
    absent, whatever the other parameters are: the port and the row cap take
    their defaults, no schema is interpolated, and no directive is added. *)
Theorem X7_empty_means_absent (input : Input) (p s ins m : option jsstring) :
  handler parseInt stringify w (with_optionals input (Some []) s ins m)
  = handler parseInt stringify w (with_optionals input None s ins m) /\
  handler parseInt stringify w (with_optionals input p (Some []) ins m)
  = handler parseInt stringify w (with_optionals input p None ins m) /\
  handler parseInt stringify w (with_optionals input p s (Some []) m)
  = handler parseInt stringify w (with_optionals input p s None m) /\
  handler parseInt stringify w (with_optionals input p s ins (Some []))
  = handler parseInt stringify w (with_optionals input p s ins None).
Proof. repeat split. Qed.

End MorePipelineResults.

(** X2 at a request whose connection fails to close after a successful
    query. *)
Lemma X2_close_error_wins_witness :
  createConnection failing_to_close (connection_options Demo.parseInt request) = None /\
  connectionEnd failing_to_close = Some (js "Connection lost") /\
  snd (run failing_to_close request) = inl (js "Connection lost").
Proof.
  split; [reflexivity|]. split; [reflexivity|].
  apply (X2_close_error_wins (option Z) Demo.rows Demo.parseInt Demo.stringify
           failing_to_close request (js "Connection lost")); reflexivity.
Defined.

(** X4 at a request whose statement the database rejects. *)
Lemma X4_query_failure_witness :
  trim answer <> [] /\
  connectionQuery rejecting (sanitizeSqlQuery (trim answer))
    = inl (js "Unknown column 'x'") /\
  run rejecting request
  = ([ Connect (connection_options Demo.parseInt request);
       Complete (openaiApiKey request)
         (chat_request (or_else (schema request) (js "[]")) (question request));
       Query (sanitizeSqlQuery (trim answer));
       End ],
     inl (js "Query failed. Please ensure your question uses existing table and column names. If possible, provide the database schema in the 'schema' parameter. Error: "
          ++ js "Unknown column 'x'")).
Proof.
  assert (Ht : trim answer <> []) by (vm_compute; discriminate).
  split; [exact Ht|]. split; [reflexivity|].
  apply (X4_query_failure (option Z) Demo.rows Demo.parseInt Demo.stringify
           rejecting request answer (js "Unknown column 'x'"));
    (reflexivity || exact Ht).
Defined.

(** X5 at a request the database answers with no rows. *)
Lemma X5_success_witness :
  trim answer <> [] /\
  connectionQuery answering (sanitizeSqlQuery (trim answer)) = inr tt /\
  exists out,
    run answering request
    = ([ Connect (connection_options Demo.parseInt request);
         Complete (openaiApiKey request)
           (chat_request (or_else (schema request) (js "[]")) (question request));
         Query (sanitizeSqlQuery (trim answer));
         End ],
       inr out) /\
    response out
    = match instructions request with
      | Some (x :: t) =>
        js "Instructions for the following content: " ++ (x :: t) ++ nl ++ nl
      | _ => []
      end ++ Demo.stringify tt.
Proof.
  assert (Ht : trim answer <> []) by (vm_compute; discriminate).
  split; [exact Ht|]. split; [reflexivity|].
  apply (X5_success (option Z) Demo.rows Demo.parseInt Demo.stringify
           answering request answer tt);
    (reflexivity || exact Ht).
Defined.

(** X6 at a response whose content is a fenced statement. *)
Lemma X6_generated_text_is_trimmed_witness :
  snd (generateSqlQuery answering (js "sk-test") (js "[]") (js "Who?") (Some 100%Z))
    = inr (trim answer) /\
  trim answer <> [] /\
  is_space (hd 0%N (trim answer)) = false /\
  is_space (last (trim answer) 0%N) = false.
Proof.
  assert (H : snd (generateSqlQuery answering (js "sk-test") (js "[]") (js "Who?")
                     (Some 100%Z)) = inr (trim answer))
    by (vm_compute; reflexivity).
  split; [exact H|].
  apply (X6_generated_text_is_trimmed (option Z) Demo.rows answering
           (js "sk-test") (js "[]") (js "Who?") (Some 100%Z) (trim answer) H).
Defined.

Module Prompt.

Lemma str_eqb_eq a : forall b, str_eqb a b = true -> a = b.
Proof.
  induction a as [|x a IH]; intros [|y b] H; simpl in H; try discriminate.
  - reflexivity.
  - apply andb_prop in H as [Hx Ha]. apply N.eqb_eq in Hx. f_equal; auto.
Qed.

Lemma schema_line_inj a b : schema_line a = schema_line b -> a = b.
Proof.
  unfold schema_line.
  destruct (str_eqb a (js "[]")) eqn:Ea, (str_eqb b (js "[]")) eqn:Eb;
    cbn [negb]; intros H.
  - apply str_eqb_eq in Ea, Eb. congruence.
  - discriminate.
  - discriminate.
  - apply app_inv_head in H. exact H.
Qed.

End Prompt.

(** X8. The system instruction determines the schema text it was built from:
    two schema texts give the same instruction only when they are equal, so
    the sentinel [[]] is the only text that is not interpolated. *)
Theorem X8_instruction_determines_schema (a b : jsstring) :
  system_instruction a = system_instruction b <-> a = b.
Proof.
  split; [|intros ->; reflexivity].
  unfold system_instruction. intros H.
  apply app_inv_head, app_inv_tail in H. apply Prompt.schema_line_inj, H.
Qed.

(* ------------------------------------------------------------------ *)
(** ** More on the guardrail: what the steps delete and what they keep *)

Module Deleted.

Lemma hits_in_nonempty fl r cls :
  hits_in fl r cls ->
  forall prev s p' s', exec fl r prev s = Some (p', s') -> (length s' < length s)%nat.
Proof.
  intros Hh prev s p' s' H. destruct (Hh _ _ _ _ H) as (w & -> & Hw & _).
  rewrite length_app. destruct w; [congruence | simpl; lia].
Qed.

Lemma subseq_refl a : subseq a a.
Proof. induction a; constructor; assumption. Qed.

Lemma subseq_skip w : forall a b, subseq a b -> subseq a (w ++ b).
Proof. induction w; intros a' b H; [exact H | simpl; constructor; auto]. Qed.

Lemma subseq_trans a b c : subseq a b -> subseq b c -> subseq a c.
Proof.
  intros H1 H2. revert a H1.
  induction H2 as [|x b c H2 IH|x b c H2 IH]; intros a H1.
  - exact H1.
  - inversion H1; subst; constructor; auto.
  - constructor. auto.
Qed.

Lemma subseq_length a b : subseq a b -> (length a <= length b)%nat.
Proof. induction 1; simpl; lia. Qed.

Lemma subseq_before_semicolon x : subseq (before_semicolon x) x.
Proof.
  induction x as [|c t IH]; simpl; [constructor|].
  destruct (is_semicolon c).
  - constructor. clear IH. induction t; constructor; assumption.
  - constructor. exact IH.
Qed.

(** A global replace that deletes its matches leaves a subsequence. *)
Lemma deleting_subseq fl r cls :
  hits_in fl r cls ->
  forall n prev s, (length s < n)%nat ->
  subseq (replace_all_from fl r (to "") n prev s) s.
Proof.
  intros Hh.
  apply (deleting_ind fl r) with (Q := fun _ s out => subseq out s).
  - apply (hits_in_nonempty fl r cls Hh).
  - intros. constructor.
  - intros. constructor. assumption.
  - intros prev s p' s' out He H.
    destruct (Hh _ _ _ _ He) as (w & -> & _). apply subseq_skip, H.
Qed.

(** It deletes code units of class [cls] only: the others stay, in order. *)
Lemma deleting_filter fl r cls keep :
  hits_in fl r cls ->
  (forall c, cls c = true -> keep c = false) ->
  forall n prev s, (length s < n)%nat ->
  filter keep (replace_all_from fl r (to "") n prev s) = filter keep s.
Proof.
  intros Hh Hk.
  apply (deleting_ind fl r) with
    (Q := fun _ s out => filter keep out = filter keep s).
  - apply (hits_in_nonempty fl r cls Hh).
  - reflexivity.
  - intros prev c t out _ H. simpl. rewrite H. reflexivity.
  - intros prev s p' s' out He H.
    destruct (Hh _ _ _ _ He) as (w & -> & _ & Hw).
    rewrite filter_app, H.
    replace (filter keep w) with (@nil N); [reflexivity|].
    clear -Hw Hk. induction w as [|c w IH]; [reflexivity|].
    simpl in Hw |- *. apply andb_prop in Hw as [Hc Hw].
    rewrite (Hk c Hc). auto.
Qed.

Lemma lits_hit fl pat : forall prev s p' s',
  rmatch fl (lits pat) accept prev s = Some (p', s') ->
  exists w, s = w ++ s' /\ length w = length pat.
Proof.
  induction pat as [|c pat IH]; intros prev s p' s' H; simpl in H.
  - injection H as _ <-. exists []. auto.
  - destruct s as [|x s1]; [discriminate|].
    destruct (lit_matches fl c x); [|discriminate].
    destruct (IH _ _ _ _ H) as (w & -> & Hw).
    exists (x :: w). simpl. auto.
Qed.

Lemma fence_sql_hits : hits_in fl_gi re_fence_sql (fun _ => true).
Proof.
  intros prev s p' s' H. apply lits_hit in H as (w & -> & Hw).
  exists w. split; [reflexivity|]. split.
  - intros ->. discriminate.
  - apply forallb_forall. reflexivity.
Qed.

Lemma fence_hits : hits_in fl_g re_fence is_tick.
Proof.
  intros prev s p' s' H. rewrite exec_fence in H.
  destruct s as [|a [|b [|c t]]]; try discriminate.
  destruct (is_tick a) eqn:Ea, (is_tick b) eqn:Eb, (is_tick c) eqn:Ec;
    try discriminate.
  injection H as _ <-. exists [a; b; c]. split; [reflexivity|].
  split; [discriminate|]. simpl. rewrite Ea, Eb, Ec. reflexivity.
Qed.

Lemma skip_line_dots t : exists a, t = a ++ skip_line t /\ forallb dot a = true.
Proof.
  unfold skip_line. induction t as [|c t (a & IH & Ha)]; [exists []; auto|].
  simpl. destruct (dot c) eqn:E.
  - exists (c :: a). simpl. rewrite E, Ha. split; [f_equal; exact IH | reflexivity].
  - exists []. auto.
Qed.

Lemma comment_hits : hits_in fl_gm re_comment dot.
Proof.
  intros prev s p' s' H. pose proof (exec_comment prev s) as E.
  destruct s as [|a [|b t]]; try congruence.
  destruct (is_dash a) eqn:Ea, (is_dash b) eqn:Eb; simpl in E; try congruence.
  destruct E as [q E]. rewrite E in H. injection H as _ <-.
  destruct (skip_line_dots t) as (u & Hu & Hd).
  exists (a :: b :: u). split; [simpl; do 2 f_equal; exact Hu|].
  split; [discriminate|]. simpl. unfold dot at 1 2.
  rewrite (dash_not_line_terminator a Ea), (dash_not_line_terminator b Eb).
  exact Hd.
Qed.

Lemma blank_end_spaces s : forall p' s',
  blank_end s = Some (p', s') ->
  exists w, s = w ++ s' /\ w <> [] /\ forallb is_space w = true.
Proof.
  induction s as [|c t IH]; intros p' s' H; simpl in H; [discriminate|].
  destruct (is_space c) eqn:Ec; [|discriminate].
  destruct (blank_end t) as [[q u]|] eqn:E.
  - injection H as _ <-. destruct (IH _ _ eq_refl) as (w & -> & _ & Hw).
    exists (c :: w). split; [reflexivity|]. split; [discriminate|].
    simpl. rewrite Ec. exact Hw.
  - destruct (cr_or_lf c); [|discriminate]. injection H as _ <-.
    exists [c]. split; [reflexivity|]. split; [discriminate|].
    simpl. rewrite Ec. reflexivity.
Qed.

Lemma blank_hits : hits_in fl_gm re_blank is_space.
Proof.
  intros prev s p' s' H. apply blank_hit in H as (_ & H & _).
  apply blank_end_spaces in H. exact H.
Qed.

Lemma strip_all_subseq s : subseq (strip_all s) s.
Proof.
  unfold strip_all, strip_blank_lines, strip_comments, strip_fences,
    strip_sql_fences, replace_all.
  eapply subseq_trans; [apply (deleting_subseq _ _ _ blank_hits); lia|].
  eapply subseq_trans; [apply (deleting_subseq _ _ _ comment_hits); lia|].
  eapply subseq_trans; [apply (deleting_subseq _ _ _ fence_hits); lia|].
  apply (deleting_subseq _ _ _ fence_sql_hits); lia.
Qed.

End Deleted.
Import Deleted.

(** The boundary of X9: an empty line that ends in U+2028 is no match of the
    blank-line pattern, and stays. *)
Example empty_line_before_line_separator :
  sanitizeSqlQuery (js "SELECT 1" ++ [8232; 8232]%N ++ js "FROM t")
  = js "SELECT 1" ++ [8232; 8232]%N ++ js "FROM t;".
Proof. vm_compute. reflexivity. Qed.

(** X10. The final [trim] never changes anything: after step 7 the text
    begins with a letter and ends with [;], whatever the candidate was. *)
Theorem X10_final_trim_is_idle (s : jsstring) :
  trim (terminate (cut_at_semicolon (coerce_select (strip_all s))))
  = terminate (cut_at_semicolon (coerce_select (strip_all s))).
Proof.
  change (trim (terminate (cut_at_semicolon (coerce_select (strip_all s)))))
    with (sanitizeSqlQuery s).
  rewrite sanitize_eq. symmetry. apply finish_spec.
  pose proof (select_space_coerce (strip_all s)) as H.
  intros E. rewrite E in H. discriminate.
Qed.

Module Exactly.

Lemma tick_eq c : is_tick c = true -> c = 96%N.
Proof. apply N.eqb_eq. Qed.

Lemma dash_eq c : is_dash c = true -> c = 45%N.
Proof. apply N.eqb_eq. Qed.

Lemma infix_cons x c s : infix x s -> infix x (c :: s).
Proof. intros (a & b & ->). exists (c :: a), b. reflexivity. Qed.

Lemma fence_found s : no_run is_tick 3 s = false -> infix (js "```") s.
Proof.
  induction s as [|c t IH]; [discriminate|].
  rewrite no_run_cons. intros H. apply andb_false_iff in H as [H|H].
  - apply negb_false_iff in H. rewrite starts_fence_run in H.
    destruct t as [|b [|d t]]; try discriminate.
    apply andb_prop in H as [H Hd]. apply andb_prop in H as [Hc Hb].
    apply tick_eq in Hc, Hb, Hd. subst. exists [], t. reflexivity.
  - apply infix_cons, IH, H.
Qed.

Lemma dashes_found s : no_run is_dash 2 s = false -> infix (js "--") s.
Proof.
  induction s as [|c t IH]; [discriminate|].
  rewrite no_run_cons. intros H. apply andb_false_iff in H as [H|H].
  - apply negb_false_iff in H. rewrite starts_dashes_run in H.
    destruct t as [|b t]; try discriminate.
    apply andb_prop in H as [Hc Hb].
    apply dash_eq in Hc, Hb. subst. exists [], t. reflexivity.
  - apply infix_cons, IH, H.
Qed.

Lemma blank_end_parts s : forall p' s',
  blank_end s = Some (p', s') ->
  exists w c, s = w ++ c :: s' /\ forallb is_space w = true /\ cr_or_lf c = true.
Proof.
  induction s as [|c t IH]; intros p' s' H; simpl in H; [discriminate|].
  destruct (is_space c) eqn:Ec; [|discriminate].
  destruct (blank_end t) as [[q u]|] eqn:E.
  - injection H as _ <-. destruct (IH _ _ eq_refl) as (w & d & -> & Hw & Hd).
    exists (c :: w), d. split; [reflexivity|]. split; [|exact Hd].
    simpl. rewrite Ec. exact Hw.
  - destruct (cr_or_lf c) eqn:Ecl; [|discriminate]. injection H as _ <-.
    exists [], c. auto.
Qed.

Lemma somewhere P s : forall prev,
  nowhere P prev s = false ->
  exists a b, s = a ++ b /\ P (fold_left (fun _ c => Some c) a prev) b = true.
Proof.
  induction s as [|c t IH]; intros prev H.
  - simpl in H. rewrite andb_true_r in H. apply negb_false_iff in H.
    exists [], []. auto.
  - rewrite nowhere_cons in H. apply andb_false_iff in H as [H|H].
    + apply negb_false_iff in H. exists [], (c :: t). auto.
    + destruct (IH _ H) as (a & b & -> & Hb). exists (c :: a), b. auto.
Qed.

Lemma bol_line_start a :
  at_bol fl_gm (fold_left (fun _ c => Some c) a None) = true -> at_line_start a.
Proof.
  induction a as [|c a' _] using rev_ind; [left; reflexivity|].
  rewrite fold_left_app. simpl. intros H. right. exists a', c. auto.
Qed.

Lemma blank_run_found s : no_blank None s = false -> has_blank_run s.
Proof.
  intros H. apply somewhere in H as (a & b & -> & H).
  unfold starts_blank in H. apply andb_prop in H as [Hb He].
  destruct (blank_end b) as [[p' s']|] eqn:E; [|discriminate].
  apply blank_end_parts in E as (w & c & -> & Hw & Hc).
  exists a, w, c, s'. split; [reflexivity|].
  split; [apply bol_line_start, Hb | auto].
Qed.

Lemma semicolon_free body : existsb is_semicolon body = false <-> ~ In 59%N body.
Proof.
  induction body as [|c t IH]; simpl; [tauto|].
  rewrite orb_false_iff, IH. unfold is_semicolon. rewrite N.eqb_neq. tauto.
Qed.

(** [clean], in words. *)
Lemma clean_iff s :
  clean s = true <->
  begins_with_select_space s /\ ~ infix (js "```") s /\ ~ infix (js "--") s /\
  ~ has_blank_run s.
Proof.
  unfold clean. rewrite !andb_true_iff, select_space_iff. split.
  - intros [[[H1 H2] H3] H4]. repeat split; [exact H1 | | |].
    + apply (no_run_infix is_tick 3); [reflexivity | reflexivity | exact H2].
    + apply (no_run_infix is_dash 2); [reflexivity | reflexivity | exact H3].
    + apply no_blank_no_blank_run, H4.
  - intros (H1 & H2 & H3 & H4). repeat split; [exact H1 | | |].
    + destruct (no_run is_tick 3 s) eqn:E; [reflexivity|].
      destruct H2. apply fence_found, E.
    + destruct (no_run is_dash 2 s) eqn:E; [reflexivity|].
      destruct H3. apply dashes_found, E.
    + destruct (no_blank None s) eqn:E; [reflexivity|].
      destruct H4. apply blank_run_found, E.
Qed.

End Exactly.

(** X11. The statements the guardrail leaves unchanged are exactly those
    that begin with [SELECT] (any letter case) and a white-space code unit,
    hold no fence and no comment marker, have no line start from which white
    space runs up to a CR or LF, and end in their only [;]. *)
Theorem X11_fixed_points (s : jsstring) :
  sanitizeSqlQuery s = s <->
  begins_with_select_space s /\
  ~ infix (js "```") s /\ ~ infix (js "--") s /\ ~ has_blank_run s /\
  exists body, s = body ++ js ";" /\ ~ In 59%N body.
Proof.
  assert (R : begins_with_select_space s /\
              ~ infix (js "```") s /\ ~ infix (js "--") s /\ ~ has_blank_run s /\
              (exists body, s = body ++ js ";" /\ ~ In 59%N body)
              <-> clean s = true /\
                  exists body, s = body ++ js ";" /\ existsb is_semicolon body = false).
  { rewrite Exactly.clean_iff. split.
    - intros (H1 & H2 & H3 & H4 & body & E & Hb). split; [tauto|].
      exists body. split; [exact E | apply Exactly.semicolon_free, Hb].
    - intros ((H1 & H2 & H3 & H4) & body & E & Hb). repeat split; try assumption.
      exists body. split; [exact E | apply Exactly.semicolon_free, Hb]. }
  rewrite R. clear R. split.
  - intros E. split.
    + destruct (sanitize_clean s) as (Ht & Hd & Hb).
      pose proof (sanitize_select_space s) as Hs. rewrite E in *.
      unfold clean. rewrite Hs, Ht, Hd, Hb. reflexivity.
    + exists (before_semicolon (coerce_select (strip_all s))).
      split; [|apply before_semicolon_free].
      rewrite <- sanitize_eq. symmetry. exact E.
  - intros (Hc & body & -> & Hb). unfold clean in Hc.
    apply andb_prop in Hc as [Hc H4]. apply andb_prop in Hc as [Hc H3].
    apply andb_prop in Hc as [H1 H2].
    rewrite sanitize_eq, strip_all_fixed by assumption.
    rewrite coerce_select_spec, H1, before_semicolon_snoc by exact Hb.
    reflexivity.
Qed.



(** X13. The guardrail adds nothing but the prefix and the terminator: steps
    1 to 4 only delete, and the result is [SELECT ] or nothing, then code
    units of the candidate in their order, then [;].  So the result is at
    least 8 code units long and at most 8 longer than the candidate. *)
Theorem X13_only_prefix_and_terminator_added (s : jsstring) :
  subseq (strip_all s) s /\
  (exists pre body,
     sanitizeSqlQuery s = pre ++ body ++ js ";" /\
     (pre = [] \/ pre = js "SELECT ") /\ subseq body s) /\
  (8 <= length (sanitizeSqlQuery s) <= length s + 8)%nat.
Proof.
  pose proof (strip_all_subseq s) as Hsub.
  assert (Hex : exists pre body,
             sanitizeSqlQuery s = pre ++ body ++ js ";" /\
             (pre = [] \/ pre = js "SELECT ") /\ subseq body s).
  { rewrite sanitize_eq, coerce_select_spec.
    destruct (select_space (strip_all s)).
    - exists [], (before_semicolon (strip_all s)).
      split; [reflexivity|]. split; [left; reflexivity|].
      eapply subseq_trans; [apply subseq_before_semicolon | exact Hsub].
    - exists (js "SELECT "), (before_semicolon (strip_all s)).
      split; [reflexivity|]. split; [right; reflexivity|].
      eapply subseq_trans; [apply subseq_before_semicolon | exact Hsub]. }
  split; [exact Hsub|]. split; [exact Hex|]. split.
  - rewrite sanitize_eq.
    destruct (before_semicolon_select _ (select_space_coerce (strip_all s)))
      as (c1 & c2 & c3 & c4 & c5 & c6 & x & t & _ & -> & _).
    rewrite length_app. simpl. lia.
  - destruct Hex as (pre & body & -> & Hpre & Hb).
    apply subseq_length in Hb. rewrite !length_app.
    destruct Hpre as [-> | ->]; simpl; lia.
Qed.

(** X14. Comment stripping deletes no line terminator: the text keeps all
    its line ends, in their order. *)
Theorem X14_comments_keep_line_terminators (s : jsstring) :
  filter is_line_terminator (strip_comments s) = filter is_line_terminator s.
Proof.
  unfold strip_comments, replace_all.
  apply (deleting_filter fl_gm re_comment dot); [apply comment_hits | | lia].
  intros c H. unfold dot in H. apply negb_true_iff, H.
Qed.

(** X15. The replace of [```] deletes backticks only, and blank-line removal
    deletes white space only: every other code unit of the text stays, in its
    order. *)
Theorem X15_fences_and_blank_lines_delete_only_their_own (s : jsstring) :
  filter (fun c => negb (is_tick c)) (strip_fences s)
    = filter (fun c => negb (is_tick c)) s /\
  filter (fun c => negb (is_space c)) (strip_blank_lines s)
    = filter (fun c => negb (is_space c)) s.
Proof.
  split.
  - unfold strip_fences, replace_all.
    apply (deleting_filter fl_g re_fence is_tick); [apply fence_hits | | lia].
    intros c H. rewrite H. reflexivity.
  - unfold strip_blank_lines, replace_all.
    apply (deleting_filter fl_gm re_blank is_space); [apply blank_hits | | lia].
    intros c H. rewrite H. reflexivity.
Qed.

Module Lines.

Abbreviation strip n prev s := (replace_all_from fl_gm re_comment (to "") n prev s)
  (only parsing).

Lemma strip_prev : forall n p q s, strip n p s = strip n q s.
Proof.
  induction n as [|n IH]; intros p q s; [reflexivity|].
  pose proof (exec_comment p s) as Ep. pose proof (exec_comment q s) as Eq.
  destruct s as [|a [|b t]].
  - rewrite !replace_all_miss by assumption; reflexivity.
  - rewrite !replace_all_miss by assumption; reflexivity.
  - destruct (is_dash a && is_dash b).
    + destruct Ep as [p' Ep], Eq as [q' Eq].
      assert (Hl : (length (skip_line t) < length (a :: b :: t))%nat).
      { destruct (skip_line_suffix t) as [u Hu].
        apply (f_equal (@length _)) in Hu. rewrite length_app in Hu. simpl. lia. }
      rewrite (replace_all_hit _ _ _ n _ _ _ _ Ep Hl),
        (replace_all_hit _ _ _ n _ _ _ _ Eq Hl).
      f_equal. apply IH.
    + rewrite !replace_all_miss by assumption; reflexivity.
Qed.

Lemma strip_any n m p q s :
  (length s < n)%nat -> (length s < m)%nat -> strip n p s = strip m q s.
Proof.
  intros Hn Hm. rewrite (strip_prev n p q).
  apply replace_all_from_fuel; assumption.
Qed.

Lemma skip_line_line l tail :
  forallb dot l = true -> line_end tail -> skip_line (l ++ tail) = tail.
Proof.
  intros Hl Ht. unfold skip_line. induction l as [|c l IH]; simpl.
  - destruct Ht as [->|(lt & rest & -> & H)]; [reflexivity|].
    simpl. unfold dot. rewrite H. reflexivity.
  - simpl in Hl. apply andb_prop in Hl as [Hc Hl]. rewrite Hc. auto.
Qed.

Lemma line_end_not_dash tail : line_end tail -> lead is_dash tail = O.
Proof.
  intros [->|(lt & rest & -> & H)]; [reflexivity|]. simpl.
  destruct (is_dash lt) eqn:E; [|reflexivity].
  apply dash_not_line_terminator in E. congruence.
Qed.

Lemma strip_line l : forall n prev tail,
  forallb dot l = true -> line_end tail ->
  (length (l ++ tail) < n)%nat ->
  strip n prev (l ++ tail) = before_dashes l ++ strip (S (length tail)) None tail.
Proof.
  induction l as [|a l IH]; intros n prev tail Hl Ht Hn.
  - apply strip_any; cbn [app length] in *; lia.
  - destruct n as [|n]; [lia|].
    cbn [forallb] in Hl. apply andb_prop in Hl as [Ha Hl].
    pose proof (exec_comment prev ((a :: l) ++ tail)) as E.
    destruct l as [|b l].
    + cbn [app] in E, Hn |- *. pose proof (line_end_not_dash tail Ht) as Hd.
      assert (E' : exec fl_gm re_comment prev (a :: tail) = None).
      { destruct tail as [|x tail]; [exact E|].
        cbn [lead] in Hd. destruct (is_dash x); [discriminate|].
        rewrite andb_false_r in E. exact E. }
      rewrite (replace_all_miss _ _ _ n _ _ E'). cbn [before_dashes app].
      f_equal. apply strip_any; cbn [length] in *; lia.
    + cbn [app] in E, Hn |- *. cbn [before_dashes].
      destruct (is_dash a && is_dash b).
      * destruct E as [p' E].
        cbn [forallb] in Hl. apply andb_prop in Hl as [_ Hl].
        rewrite (skip_line_line l tail Hl Ht) in E.
        cbn [length] in Hn. rewrite length_app in Hn.
        rewrite (replace_all_hit _ _ _ n _ _ _ _ E)
          by (cbn [length]; rewrite length_app; lia).
        cbn [to js app]. apply strip_any; lia.
      * rewrite (replace_all_miss _ _ _ n _ _ E). cbn [app]. f_equal.
        apply (IH n (Some a) tail Hl Ht). cbn [app length] in Hn |- *. lia.
Qed.

End Lines.

(** X16. Comment stripping works line by line: a line is replaced by its
    text before its first [--], its line terminator stays, and the rest of
    the text is treated the same way. *)
Theorem X16_comments_line_by_line (l : jsstring) (lt : char) (rest : jsstring) :
  forallb dot l = true ->
  is_line_terminator lt = true ->
  strip_comments l = before_dashes l /\
  strip_comments (l ++ lt :: rest)
  = before_dashes l ++ lt :: strip_comments rest.
Proof.
  intros Hl Hlt. unfold strip_comments, replace_all. split.
  - rewrite <- (app_nil_r l) at 2.
    rewrite (Lines.strip_line l _ None [] Hl) by (left; reflexivity) || (rewrite app_nil_r; lia).
    simpl. apply app_nil_r.
  - rewrite (Lines.strip_line l _ None (lt :: rest) Hl); [|right; eauto|lia].
    f_equal.
    assert (E : exec fl_gm re_comment None (lt :: rest) = None).
    { pose proof (exec_comment None (lt :: rest)) as E.
      destruct (is_dash lt) eqn:Ed.
      - apply dash_not_line_terminator in Ed. congruence.
      - destruct rest; [exact E|]. rewrite Ed in E. exact E. }
    rewrite (replace_all_miss _ _ _ _ _ _ E). apply f_equal.
    apply Lines.strip_any; cbn [length]; lia.
Qed.

(** X16 at a two-line statement with a comment on each line. *)
Lemma X16_comments_line_by_line_witness :
  forallb dot (js "SELECT 1 -- one") = true /\
  is_line_terminator 10%N = true /\
  strip_comments (js "SELECT 1 -- one") = js "SELECT 1 " /\
  strip_comments (js "SELECT 1 -- one" ++ 10%N :: js "FROM t -- two")
  = js "SELECT 1 " ++ 10%N :: strip_comments (js "FROM t -- two").
Proof.
  split; [reflexivity|]. split; [reflexivity|].
  apply (X16_comments_line_by_line (js "SELECT 1 -- one") 10%N (js "FROM t -- two"));
    reflexivity.
Defined.
